(** * Event-type aggregation (getByViewer) and organization verification
      (adminVerify): a shallow embedding of the two request handlers and the
      properties of their grouping, filtering, role and slug rules. *)

From Stdlib Require Import ZArith List String Ascii Bool Lia.
From Stdlib Require Import Sorting.Sorted Sorting.Permutation.
Import ListNotations.

Local Open Scope string_scope.
Local Open Scope list_scope.
Local Open Scope Z_scope.

Set Implicit Arguments.

(** ** Results of fallible handlers *)

Inductive ErrorCode : Type :=
| FORBIDDEN
| INTERNAL_SERVER_ERROR
| TOO_MANY_REQUESTS.

(** What a handler can throw: a [TRPCError] raised by the handler itself, a
    schema validation failure ([ZodError] out of [.parse]), the runtime's
    [TypeError] raised by a property access on [undefined], or an error of
    the store: the record-not-found error of [update] (P2025), the
    out-of-range error of a value that does not fit its column (P2020), or
    the error of a store that cannot be reached (P1001). *)
Inductive Error : Type :=
| TRPCError (code : ErrorCode) (message : string)
| ZodError
| RecordNotFound
| ValueOutOfRange
| StoreUnavailable
| TypeError.

Inductive Result (A : Type) : Type :=
| Ok (a : A)
| Err (e : Error).

Arguments Ok {A} a.
Arguments Err {A} e.

Definition bindR {A B : Type} (r : Result A) (k : A -> Result B) : Result B :=
  match r with
  | Ok a => k a
  | Err e => Err e
  end.

Notation "'let*' x ':=' r 'in' k" := (bindR r (fun x => k))
  (at level 10, x name, r at level 100, k at level 200).

(** [Array.prototype.map] with a callback that may throw: the first exception
    aborts the traversal. *)
Fixpoint mapR {A B : Type} (f : A -> Result B) (l : list A) : Result (list B) :=
  match l with
  | [] => Ok []
  | x :: xs =>
      let* y := f x in
      let* ys := mapR f xs in
      Ok (y :: ys)
  end.

(** ** JavaScript values as the handlers see them *)

Module Js.

(** [Prisma.JsonValue]. *)
#[local] Unset Elimination Schemes.
Inductive JsonValue : Type :=
| JNull
| JBool (b : bool)
| JNumber (n : Z)
| JString (s : string)
| JArray (items : list JsonValue)
| JObject (fields : list (string * JsonValue)).
#[local] Set Elimination Schemes.

(** Truthiness of a nullable string: [null] and the empty string are falsy. *)
Definition truthy_string (o : option string) : bool :=
  match o with
  | None => false
  | Some s => negb (s =? "")%string
  end.

(** Truthiness of a nullable number: [null] and [0] are falsy. *)
Definition truthy_number (o : option Z) : bool :=
  match o with
  | None => false
  | Some n => negb (n =? 0)
  end.

(** Truthiness of an optional boolean. *)
Definition truthy_bool (o : option bool) : bool :=
  match o with
  | Some true => true
  | _ => false
  end.

(** Truthiness of a JSON column; a database null reads as [JNull]. *)
Definition truthy_json (j : JsonValue) : bool :=
  match j with
  | JNull => false
  | JBool b => b
  | JNumber n => negb (n =? 0)
  | JString s => negb (s =? "")%string
  | JArray _ | JObject _ => true
  end.

(** [x || d] on a nullable number. *)
Definition number_or (o : option Z) (d : Z) : Z :=
  match o with
  | Some n => if n =? 0 then d else n
  | None => d
  end.

(** [obj?.key ?? null] read as a string. *)
Definition string_field (key : string) (j : JsonValue) : option string :=
  match j with
  | JObject fields =>
      match find (fun kv => (fst kv =? key)%string) fields with
      | Some (_, JString s) => Some s
      | _ => None
      end
  | _ => None
  end.

(** A nullable string interpolated in a template literal: [null] prints as
    the four letters "null". *)
Definition template (o : option string) : string :=
  match o with
  | Some s => s
  | None => "null"
  end.

(** An optional string interpolated in a template literal: [undefined]
    prints as the nine letters "undefined". *)
Definition template_undefined (o : option string) : string :=
  match o with
  | Some s => s
  | None => "undefined"
  end.

(** [arr.includes(x)] on an array of numbers. *)
Definition includes (l : list Z) (x : Z) : bool := existsb (Z.eqb x) l.

(** [arr.findIndex(p)]: the index of the first match, [-1] when none. *)
Fixpoint findIndex {A : Type} (p : A -> bool) (l : list A) : Z :=
  match l with
  | [] => -1
  | x :: xs =>
      if p x then 0
      else let i := findIndex p xs in if i <? 0 then -1 else i + 1
  end.

(** [s.split(c)] for a one-character separator: never the empty list. *)
Fixpoint split (sep : ascii) (s : string) : list string :=
  match s with
  | EmptyString => [EmptyString]
  | String c rest =>
      if Ascii.eqb c sep then EmptyString :: split sep rest
      else
        match split sep rest with
        | [] => [String c EmptyString]
        | w :: ws => String c w :: ws
        end
  end.

End Js.

(** ** The store's pattern match *)

Module Sql.

(** [s LIKE pattern], case-sensitive and with no escape character: ["%"]
    stands for any run of characters, the empty one too, ["_"] for any one
    character, and every other character for itself. *)
Fixpoint like (pattern : string) : string -> bool :=
  match pattern with
  | EmptyString =>
      fun s => match s with EmptyString => true | String _ _ => false end
  | String c pattern' =>
      if Ascii.eqb c "%"
      then fix anywhere (s : string) : bool :=
             like pattern' s
             || match s with
                | EmptyString => false
                | String _ s' => anywhere s'
                end
      else fun s =>
             match s with
             | EmptyString => false
             | String d s' => (Ascii.eqb c "_" || Ascii.eqb c d) && like pattern' s'
             end
  end.

End Sql.

(** ** Enumerations of the schema *)

(** Modelled from the spec: the [MembershipRole] enum is imported from the
    generated schema enums, which are not part of the sources at hand; the
    spec gives its members and their canonical order, MEMBER, ADMIN, OWNER. *)
Inductive MembershipRole : Type := MEMBER | ADMIN | OWNER.

(** Modelled from the spec: [Object.keys(MembershipRole)], the role names in
    their canonical order. *)
Definition MembershipRole_keys : list MembershipRole := [MEMBER; ADMIN; OWNER].

(** Modelled from the spec: the [SchedulingType] enum is imported from the
    generated schema enums; the spec singles out its MANAGED variant. *)
Inductive SchedulingType : Type := ROUND_ROBIN | COLLECTIVE | MANAGED.

Definition MembershipRole_eqb (a b : MembershipRole) : bool :=
  match a, b with
  | MEMBER, MEMBER | ADMIN, ADMIN | OWNER, OWNER => true
  | _, _ => false
  end.

Definition SchedulingType_eqb (a b : SchedulingType) : bool :=
  match a, b with
  | ROUND_ROBIN, ROUND_ROBIN | COLLECTIVE, COLLECTIVE | MANAGED, MANAGED => true
  | _, _ => false
  end.

(** ** Role strength *)

Definition mshipToNumber (mship : MembershipRole) : Z :=
  Js.findIndex (fun mmship => MembershipRole_eqb mmship mship) MembershipRole_keys.

Definition compareMembership (mship1 mship2 : MembershipRole) : bool :=
  mshipToNumber mship1 >? mshipToNumber mship2.

(** The position of a role in the sequence MEMBER, ADMIN, OWNER, written out
    independently of the key lookup. *)
Definition role_index (r : MembershipRole) : Z :=
  match r with
  | MEMBER => 0
  | ADMIN => 1
  | OWNER => 2
  end.

(** ** Ordering by (position desc, id asc)

    Both the store's [orderBy: [{position: "desc"}, {id: "asc"}]] and lodash's
    [orderBy(xs, ["position", "id"], ["desc", "asc"])] arrange records by
    descending position, ties broken by ascending id; lodash's sort is stable,
    which the insertion below is as well. *)

Section OrderBy.

Variable A : Type.
Variables (position id : A -> Z).

(** [a] may stand before [b]. *)
Definition precedes (a b : A) : Prop :=
  position a > position b \/ (position a = position b /\ id a <= id b).

Definition precedesb (a b : A) : bool :=
  (position b <? position a) || ((position a =? position b) && (id a <=? id b)).

Fixpoint insert (x : A) (l : list A) : list A :=
  match l with
  | [] => [x]
  | y :: l' => if precedesb x y then x :: y :: l' else y :: insert x l'
  end.

Fixpoint orderBy (l : list A) : list A :=
  match l with
  | [] => []
  | x :: l' => insert x (orderBy l')
  end.

End OrderBy.

(** ** The persistence store

    The tables the two handlers read and write, with the columns they use. A
    relation is a foreign key resolved by a lookup; a row whose key does not
    resolve contributes nothing to a joined result. *)

Definition option_Z_eqb (a b : option Z) : bool :=
  match a, b with
  | Some x, Some y => x =? y
  | None, None => true
  | _, _ => false
  end.

Module User.
Record t : Type := mk {
  id : Z;
  email : string;
  username : option string;
  name : option string;
  organizationId : option Z
}.

Definition set_organizationId (o : option Z) (u : t) : t :=
  mk (id u) (email u) (username u) (name u) o.
End User.

Module Team.
Record t : Type := mk {
  id : Z;
  isOrganization : bool;
  name : string;
  slug : option string;
  parentId : option Z;
  metadata : Js.JsonValue
}.
End Team.

Module Membership.
Record t : Type := mk {
  userId : Z;
  teamId : Z;
  role : MembershipRole;
  accepted : bool
}.

Definition set_accepted (b : bool) (m : t) : t :=
  mk (userId m) (teamId m) (role m) b.
End Membership.

Module EventType.
(** [users] is the many-to-many relation behind [user.eventTypes]; [hosts]
    lists the user of each host row; [userId] is the owner column. *)
Record t : Type := mk {
  id : Z;
  position : Z;
  schedulingType : option SchedulingType;
  teamId : option Z;
  userId : option Z;
  parentId : option Z;
  description : option string;
  metadata : Js.JsonValue;
  users : list Z;
  hosts : list Z
}.
End EventType.

Module OrganizationSettings.
Record t : Type := mk {
  organizationId : Z;
  isOrganizationVerified : bool
}.

Definition set_isOrganizationVerified (b : bool) (s : t) : t :=
  mk (organizationId s) b.
End OrganizationSettings.

Module Db.
Record t : Type := mk {
  users : list User.t;
  teams : list Team.t;
  memberships : list Membership.t;
  eventTypes : list EventType.t;
  organizationSettings : list OrganizationSettings.t
}.

Definition set_users (us : list User.t) (db : t) : t :=
  mk us (teams db) (memberships db) (eventTypes db) (organizationSettings db).

Definition set_memberships (ms : list Membership.t) (db : t) : t :=
  mk (users db) (teams db) ms (eventTypes db) (organizationSettings db).

Definition set_organizationSettings (ss : list OrganizationSettings.t) (db : t) : t :=
  mk (users db) (teams db) (memberships db) (eventTypes db) ss.

Definition findUser (db : t) (uid : Z) : option User.t :=
  find (fun u => User.id u =? uid) (users db).

Definition findTeam (db : t) (tid : Z) : option Team.t :=
  find (fun t => Team.id t =? tid) (teams db).
End Db.

(** ** The shapes selected by the getByViewer query *)

(** [userSelect]. *)
Module UserSelect.
Record t : Type := mk {
  id : Z;
  username : option string;
  name : option string;
  organizationId : option Z
}.
End UserSelect.

(** The [team] block of [userEventTypeSelect]. *)
Module TeamBrief.
Record t : Type := mk {
  id : Z;
  name : string;
  slug : option string
}.
End TeamBrief.

(** An event type as [userEventTypeSelect] returns it. The selected columns
    that the handler only copies through (hashedLink, destinationCalendar,
    seatsPerTimeSlot, children and the remaining base columns) are left out. *)
Module EventTypeSel.
Record t : Type := mk {
  id : Z;
  position : Z;
  schedulingType : option SchedulingType;
  userId : option Z;
  parentId : option Z;
  team : option TeamBrief.t;
  description : option string;
  metadata : Js.JsonValue;
  users : list UserSelect.t;
  hosts : list UserSelect.t
}.
End EventTypeSel.

Module TeamSel.
Record t : Type := mk {
  id : Z;
  isOrganization : bool;
  name : string;
  slug : option string;
  parentId : option Z;
  metadata : Js.JsonValue;
  parent : option Team.t;
  members : list Z;
  eventTypes : list EventTypeSel.t
}.

Definition set_metadata (j : Js.JsonValue) (x : t) : t :=
  mk (id x) (isOrganization x) (name x) (slug x) (parentId x) j (parent x)
     (members x) (eventTypes x).
End TeamSel.

Module MembershipSel.
Record t : Type := mk {
  role : MembershipRole;
  team : TeamSel.t
}.
End MembershipSel.

Module UserSel.
Record t : Type := mk {
  id : Z;
  username : option string;
  name : option string;
  organizationId : option Z;
  teams : list MembershipSel.t;
  eventTypes : list EventTypeSel.t
}.
End UserSel.

(** ** The getByViewer query *)

Module Query.

Definition selectUser (u : User.t) : UserSelect.t :=
  UserSelect.mk (User.id u) (User.username u) (User.name u) (User.organizationId u).

Definition selectUsers (db : Db.t) (ids : list Z) : list UserSelect.t :=
  flat_map (fun i => match Db.findUser db i with
                     | Some u => [selectUser u]
                     | None => []
                     end) ids.

Definition selectTeamBrief (db : Db.t) (tid : option Z) : option TeamBrief.t :=
  match tid with
  | None => None
  | Some i =>
      match Db.findTeam db i with
      | Some t => Some (TeamBrief.mk (Team.id t) (Team.name t) (Team.slug t))
      | None => None
      end
  end.

Definition selectEventType (db : Db.t) (e : EventType.t) : EventTypeSel.t :=
  EventTypeSel.mk (EventType.id e) (EventType.position e)
    (EventType.schedulingType e) (EventType.userId e) (EventType.parentId e)
    (selectTeamBrief db (EventType.teamId e))
    (EventType.description e) (EventType.metadata e)
    (selectUsers db (EventType.users e)) (selectUsers db (EventType.hosts e)).

(** [team.eventTypes], ordered by position desc, id asc. *)
Definition teamEventTypes (db : Db.t) (tid : Z) : list EventTypeSel.t :=
  map (selectEventType db)
    (orderBy EventType.position EventType.id
       (filter (fun e => option_Z_eqb (EventType.teamId e) (Some tid))
          (Db.eventTypes db))).

Definition selectTeam (db : Db.t) (t : Team.t) : TeamSel.t :=
  TeamSel.mk (Team.id t) (Team.isOrganization t) (Team.name t) (Team.slug t)
    (Team.parentId t) (Team.metadata t)
    (match Team.parentId t with
     | Some p => Db.findTeam db p
     | None => None
     end)
    (map Membership.userId
       (filter (fun m => Membership.teamId m =? Team.id t) (Db.memberships db)))
    (teamEventTypes db (Team.id t)).

(** [user.teams] with [where: {accepted: true}]. *)
Definition userTeams (db : Db.t) (uid : Z) : list MembershipSel.t :=
  flat_map (fun m => match Db.findTeam db (Membership.teamId m) with
                     | Some t => [MembershipSel.mk (Membership.role m) (selectTeam db t)]
                     | None => []
                     end)
    (filter (fun m => (Membership.userId m =? uid) && Membership.accepted m)
       (Db.memberships db)).

(** The rows behind [user.eventTypes] with
    [where: {teamId: null, userId: whereUserId}]. *)
Definition userEventTypeRows (db : Db.t) (uid whereUserId : Z) : list EventType.t :=
  filter (fun e => Js.includes (EventType.users e) uid
                   && option_Z_eqb (EventType.teamId e) None
                   && option_Z_eqb (EventType.userId e) (Some whereUserId))
    (Db.eventTypes db).

(** [user.eventTypes], ordered by position desc, id asc. *)
Definition userEventTypes (db : Db.t) (uid whereUserId : Z) : list EventTypeSel.t :=
  map (selectEventType db)
    (orderBy EventType.position EventType.id (userEventTypeRows db uid whereUserId)).

(** [prisma.user.findUnique] as the handler calls it. *)
Definition user_findUnique (db : Db.t) (uid whereUserId : Z) : option UserSel.t :=
  match Db.findUser db uid with
  | Some u =>
      Some (UserSel.mk (User.id u) (User.username u) (User.name u)
              (User.organizationId u) (userTeams db uid)
              (userEventTypes db uid whereUserId))
  | None => None
  end.

End Query.

(** ** getByViewer: input, output and collaborators *)

Module Filters.
Record t : Type := mk {
  teamIds : option (list Z);
  userIds : option (list Z)
}.
End Filters.

Module Input.
Record t : Type := mk {
  filters : option Filters.t;
  forRoutingForms : option bool
}.
End Input.

(** What [mapEventType] returns. *)
Module MappedEventType.
Record t : Type := mk {
  id : Z;
  position : Z;
  schedulingType : option SchedulingType;
  userId : option Z;
  parentId : option Z;
  team : option TeamBrief.t;
  description : option string;
  hosts : list UserSelect.t;
  safeDescription : option string;
  users : list UserSelect.t;
  metadata : option Js.JsonValue
}.
End MappedEventType.

Module Profile.
Record t : Type := mk {
  slug : option string;
  name : option string;
  image : string
}.
End Profile.

Module GroupMetadata.
Record t : Type := mk {
  membershipCount : Z;
  readOnly : bool
}.
End GroupMetadata.

Module EventTypeGroup.
Record t : Type := mk {
  teamId : option Z;
  parentId : option Z;
  bookerUrl : string;
  membershipRole : option MembershipRole;
  profile : Profile.t;
  metadata : GroupMetadata.t;
  eventTypes : list MappedEventType.t
}.
End EventTypeGroup.

Module ProfileSummary.
Record t : Type := mk {
  slug : option string;
  name : option string;
  image : string;
  membershipCount : Z;
  readOnly : bool;
  teamId : option Z;
  membershipRole : option MembershipRole
}.
End ProfileSummary.

Module Output.
Record t : Type := mk {
  eventTypeGroups : list EventTypeGroup.t;
  profiles : list ProfileSummary.t
}.
End Output.

(** The entries of [teamMemberships]. *)
Module TeamMembership.
Record t : Type := mk {
  teamId : Z;
  membershipRole : MembershipRole
}.
End TeamMembership.

(** The functions the handler imports from the rest of the application; their
    code is outside the sources at hand, so the handler is stated over any
    implementation of them. The rate limiter is keyed by the viewer's id, the
    booker URL of a user by the user's organization id. *)
Record Collaborators : Type := {
  hasFilter : Filters.t -> bool;
  checkRateLimitAndThrowError : Z -> Result unit;
  getBookerBaseUrl : option Z -> string;
  getBookerBaseUrlSync : option string -> string;
  getUserAvatarUrl : option string -> option Z -> string;
  getTeamAvatarUrl : option string -> option string -> option Z -> string;
  markdownToSafeHTML : string -> string;
  teamMetadataSchema_parse : Js.JsonValue -> Result Js.JsonValue;
  EventTypeMetaDataSchema_parse : Js.JsonValue -> Result Js.JsonValue
}.

(** Modelled from the spec: a criterion of a filter set counts when it is
    present and not empty. *)
Definition nonEmptyCriterion (c : option (list Z)) : bool :=
  match c with
  | Some (_ :: _) => true
  | _ => false
  end.

(** Modelled from the spec: [hasFilter] is imported from the filters library,
    which is not part of the sources at hand. A filter set is active when it
    contains at least one non-empty criterion. *)
Definition hasFilter_spec (filters : Filters.t) : bool :=
  nonEmptyCriterion (Filters.userIds filters)
  || nonEmptyCriterion (Filters.teamIds filters).

(** ** getByViewer: the handler *)

Module GetByViewer.

Section Handler.

Variable E : Collaborators.

(** [input?.filters]. *)
Definition input_filters (input : option Input.t) : option Filters.t :=
  match input with
  | Some i => Input.filters i
  | None => None
  end.

(** [input?.forRoutingForms]. *)
Definition input_forRoutingForms (input : option Input.t) : option bool :=
  match input with
  | Some i => Input.forRoutingForms i
  | None => None
  end.

(** [!filters || !hasFilter(filters)]. *)
Definition noActiveFilter (filters : option Filters.t) : bool :=
  match filters with
  | None => true
  | Some f => negb (hasFilter E f)
  end.

Definition getPrismaWhereUserIdFromFilter (userId : Z) (filters : option Filters.t) : Z :=
  match filters with
  | None => userId
  | Some f =>
      if negb (hasFilter E f) then userId
      else
        match Filters.userIds f with
        | Some (first :: _) => if first =? userId then userId else 0
        | _ => 0
        end
  end.

Definition mapEventType (eventType : EventTypeSel.t) : Result MappedEventType.t :=
  let safeDescription :=
    match EventTypeSel.description eventType with
    | Some d => if Js.truthy_string (Some d) then Some (markdownToSafeHTML E d) else None
    | None => None
    end in
  let users :=
    match EventTypeSel.hosts eventType with
    | [] => EventTypeSel.users eventType
    | _ :: _ => EventTypeSel.hosts eventType
    end in
  let* metadata :=
    (if Js.truthy_json (EventTypeSel.metadata eventType)
     then let* m := EventTypeMetaDataSchema_parse E (EventTypeSel.metadata eventType) in
          Ok (Some m)
     else Ok None) in
  Ok (MappedEventType.mk
        (EventTypeSel.id eventType) (EventTypeSel.position eventType)
        (EventTypeSel.schedulingType eventType) (EventTypeSel.userId eventType)
        (EventTypeSel.parentId eventType) (EventTypeSel.team eventType)
        (EventTypeSel.description eventType) (EventTypeSel.hosts eventType)
        safeDescription users metadata).

(** [evType.schedulingType !== SchedulingType.MANAGED]. *)
Definition notManaged (evType : MappedEventType.t) : bool :=
  match MappedEventType.schedulingType evType with
  | Some s => negb (SchedulingType_eqb s MANAGED)
  | None => true
  end.

(** [filters?.teamIds?.includes(id || 0) ?? false]. *)
Definition teamIdsInclude (filters : option Filters.t) (id : option Z) : bool :=
  match filters with
  | Some f =>
      match Filters.teamIds f with
      | Some l => Js.includes l (Js.number_or id 0)
      | None => false
      end
  | None => false
  end.

Definition filterTeamsEventTypesBasedOnInput (input : option Input.t)
    (eventType : MappedEventType.t) : bool :=
  if noActiveFilter (input_filters input) then true
  else teamIdsInclude (input_filters input)
         (option_map TeamBrief.id (MappedEventType.team eventType)).

(** The condition under which the personal group is pushed. *)
Definition personalGroupIncluded (input : option Input.t) (userId : Z) : bool :=
  noActiveFilter (input_filters input)
  || match input_filters input with
     | Some f =>
         match Filters.userIds f with
         | Some l => Js.includes l userId
         | None => false
         end
     | None => false
     end.

Definition personalGroup (user : UserSel.t)
    (unmanagedEventTypes : list MappedEventType.t) : EventTypeGroup.t :=
  EventTypeGroup.mk None None
    (getBookerBaseUrl E (UserSel.organizationId user))
    None
    (Profile.mk (UserSel.username user) (UserSel.name user)
       (getUserAvatarUrl E (UserSel.username user) (UserSel.organizationId user)))
    (GroupMetadata.mk 1 false)
    (orderBy MappedEventType.position MappedEventType.id unmanagedEventTypes).

(** The predicate of [memberships.filter]. *)
Definition membershipKept (input : option Input.t) (mmship : MembershipSel.t) : bool :=
  if TeamSel.isOrganization (MembershipSel.team mmship) then false
  else if noActiveFilter (input_filters input) then true
  else teamIdsInclude (input_filters input)
         (Some (TeamSel.id (MembershipSel.team mmship))).

(** [teamMemberships.find(teamM => teamM.teamId === parentId)?.membershipRole]. *)
Definition findOrgMembership (teamMemberships : list TeamMembership.t)
    (parentId : option Z) : option MembershipRole :=
  option_map TeamMembership.membershipRole
    (find (fun teamM => option_Z_eqb (Some (TeamMembership.teamId teamM)) parentId)
       teamMemberships).

(** [orgMembership && compareMembership(orgMembership, role) ? orgMembership : fallback]. *)
Definition strongerOr (orgMembership : option MembershipRole)
    (role fallback : MembershipRole) : MembershipRole :=
  match orgMembership with
  | Some o => if compareMembership o role then o else fallback
  | None => fallback
  end.

Definition resolveSlug (input : option Input.t) (slug : option string)
    (parentId : option Z) : option string :=
  if Js.truthy_bool (input_forRoutingForms input)
  then Some ("team/" ++ Js.template slug)%string
  else if Js.truthy_string slug
       then (if negb (Js.truthy_number parentId)
             then Some ("team/" ++ Js.template slug)%string
             else Some (Js.template slug))
       else None.

Definition resolveReadOnly (orgMembership : option MembershipRole)
    (role : MembershipRole) (parentId : option Z) : bool :=
  MembershipRole_eqb role
    (if Js.truthy_number parentId
     then strongerOr orgMembership role MEMBER
     else MEMBER).

(** The filters applied to a team's mapped event types. *)
Definition teamGroupEventTypes (ctx_user_id : Z) (input : option Input.t)
    (role : MembershipRole) (mapped : list MappedEventType.t) : list MappedEventType.t :=
  filter (fun evType => if MembershipRole_eqb role MEMBER then notManaged evType else true)
    (filter (fun evType => option_Z_eqb (MappedEventType.userId evType) None
                           || option_Z_eqb (MappedEventType.userId evType) (Some ctx_user_id))
       (filter (filterTeamsEventTypesBasedOnInput input) mapped)).

(** The callback of [.map((membership) => ...)]: the group of one team. *)
Definition teamGroup (ctx_user_id : Z) (input : option Input.t)
    (teamMemberships : list TeamMembership.t) (membership : MembershipSel.t)
    : Result EventTypeGroup.t :=
  let orgMembership :=
    findOrgMembership teamMemberships (TeamSel.parentId (MembershipSel.team membership)) in
  let* metadata := teamMetadataSchema_parse E (TeamSel.metadata (MembershipSel.team membership)) in
  let team := TeamSel.set_metadata metadata (MembershipSel.team membership) in
  let slug := resolveSlug input (TeamSel.slug team) (TeamSel.parentId team) in
  let role := MembershipSel.role membership in
  let* mapped := mapR mapEventType (TeamSel.eventTypes team) in
  Ok (EventTypeGroup.mk
        (Some (TeamSel.id team))
        (TeamSel.parentId team)
        (getBookerBaseUrlSync E
           (match TeamSel.parent team with
            | Some p => Team.slug p
            | None => None
            end))
        (Some (strongerOr orgMembership role role))
        (Profile.mk slug (Some (TeamSel.name team))
           (getTeamAvatarUrl E (TeamSel.slug team)
              (Js.string_field "requestedSlug" (TeamSel.metadata team))
              (TeamSel.parentId team)))
        (GroupMetadata.mk (Z.of_nat (List.length (TeamSel.members team)))
           (resolveReadOnly orgMembership role (TeamSel.parentId team)))
        (teamGroupEventTypes ctx_user_id input role mapped)).

(** The callback of [user.teams.map] that parses each team's metadata. *)
Definition normalizeMembership (membership : MembershipSel.t) : Result MembershipSel.t :=
  let* metadata := teamMetadataSchema_parse E (TeamSel.metadata (MembershipSel.team membership)) in
  Ok (MembershipSel.mk (MembershipSel.role membership)
        (TeamSel.set_metadata metadata (MembershipSel.team membership))).

Definition toProfileSummary (group : EventTypeGroup.t) : ProfileSummary.t :=
  ProfileSummary.mk
    (Profile.slug (EventTypeGroup.profile group))
    (Profile.name (EventTypeGroup.profile group))
    (Profile.image (EventTypeGroup.profile group))
    (GroupMetadata.membershipCount (EventTypeGroup.metadata group))
    (GroupMetadata.readOnly (EventTypeGroup.metadata group))
    (EventTypeGroup.teamId group)
    (EventTypeGroup.membershipRole group).

Definition teamMembershipsOf (teams : list MembershipSel.t) : list TeamMembership.t :=
  map (fun membership =>
         TeamMembership.mk (TeamSel.id (MembershipSel.team membership))
           (MembershipSel.role membership))
    teams.

(** The handler from the point where the query has returned [user]. *)
Definition groupsOfUser (ctx_user_id : Z) (input : option Input.t) (user : UserSel.t)
    : Result Output.t :=
  let* memberships := mapR normalizeMembership (UserSel.teams user) in
  let* userEventTypes := mapR mapEventType (UserSel.eventTypes user) in
  let unmanagedEventTypes := filter notManaged userEventTypes in
  let eventTypeGroups :=
    if personalGroupIncluded input (UserSel.id user)
    then [personalGroup user unmanagedEventTypes]
    else [] in
  let teamMemberships := teamMembershipsOf (UserSel.teams user) in
  let* teamGroups :=
    mapR (teamGroup ctx_user_id input teamMemberships)
      (filter (membershipKept input) memberships) in
  let eventTypeGroups := eventTypeGroups ++ teamGroups in
  Ok (Output.mk eventTypeGroups (map toProfileSummary eventTypeGroups)).

(** The handler. A [TRPCError] built from a code alone has the code as its
    message. *)
Definition getByViewerHandler (db : Db.t) (ctx_user_id : Z) (input : option Input.t)
    : Result Output.t :=
  let* _ := checkRateLimitAndThrowError E ctx_user_id in
  match Query.user_findUnique db ctx_user_id
          (getPrismaWhereUserIdFromFilter ctx_user_id (input_filters input)) with
  | None => Err (TRPCError INTERNAL_SERVER_ERROR "INTERNAL_SERVER_ERROR")
  | Some user => groupsOfUser ctx_user_id input user
  end.

End Handler.

(** *** Sample data: a viewer, an organization, three teams *)

Definition sampleCollaborators : Collaborators := {|
  hasFilter := hasFilter_spec;
  checkRateLimitAndThrowError := fun _ => Ok tt;
  getBookerBaseUrl := fun _ => "https://cal.example";
  getBookerBaseUrlSync := fun parentSlug =>
    match parentSlug with
    | Some s => ("https://" ++ s ++ ".cal.example")%string
    | None => "https://cal.example"
    end;
  getUserAvatarUrl := fun username _ => ("/" ++ Js.template username ++ "/avatar.png")%string;
  getTeamAvatarUrl := fun slug _ _ => ("/team/" ++ Js.template slug ++ "/avatar.png")%string;
  markdownToSafeHTML := fun d => d;
  teamMetadataSchema_parse := fun j => Ok j;
  EventTypeMetaDataSchema_parse := fun j => Ok j
|}.

Definition sampleEventType (id position : Z) (schedulingType : option SchedulingType)
    (teamId userId : option Z) (users : list Z) : EventType.t :=
  EventType.mk id position schedulingType teamId userId None None Js.JNull users [].

(** The viewer is user 1: ADMIN of the organization 10, MEMBER of its
    sub-team 11, OWNER of the stand-alone team 12, MEMBER of team 13, which
    has no slug, and ADMIN of team 15, whose slug is the empty string; the
    viewer's invitation to team 14 is not accepted. *)
Definition sampleDb : Db.t :=
  Db.mk
    [ User.mk 1 "ann@acme.com" (Some "ann") (Some "Ann") (Some 10);
      User.mk 2 "bob@acme.com" (Some "bob") (Some "Bob") (Some 10) ]
    [ Team.mk 10 true "Acme" (Some "acme") None Js.JNull;
      Team.mk 11 false "Sales" (Some "sales") (Some 10) Js.JNull;
      Team.mk 12 false "Solo" (Some "solo") None Js.JNull;
      Team.mk 13 false "Draft" None None
        (Js.JObject [("requestedSlug", Js.JString "draft")]);
      Team.mk 14 false "Pending" (Some "pending") None Js.JNull;
      Team.mk 15 false "Blank" (Some "") None Js.JNull ]
    [ Membership.mk 1 10 ADMIN true;
      Membership.mk 1 11 MEMBER true;
      Membership.mk 1 12 OWNER true;
      Membership.mk 1 13 MEMBER true;
      Membership.mk 1 14 MEMBER false;
      Membership.mk 1 15 ADMIN true;
      Membership.mk 2 11 ADMIN true ]
    [ sampleEventType 100 0 None None (Some 1) [1];
      sampleEventType 101 3 None None (Some 1) [1];
      sampleEventType 102 3 (Some MANAGED) None (Some 1) [1];
      sampleEventType 103 7 None None (Some 2) [2];
      sampleEventType 110 1 (Some MANAGED) (Some 11) None [];
      sampleEventType 111 2 (Some COLLECTIVE) (Some 11) None [];
      sampleEventType 112 2 None (Some 11) (Some 2) [2];
      sampleEventType 113 9 None (Some 11) (Some 1) [1];
      sampleEventType 120 0 (Some MANAGED) (Some 12) None [];
      sampleEventType 121 4 (Some ROUND_ROBIN) (Some 12) None [];
      sampleEventType 130 0 (Some MANAGED) (Some 13) None [] ]
    [].

Definition noInput : option Input.t := None.

Definition inputWithFilters (teamIds userIds : option (list Z)) : option Input.t :=
  Some (Input.mk (Some (Filters.mk teamIds userIds)) None).

Definition routingFormsInput : option Input.t :=
  Some (Input.mk None (Some true)).

End GetByViewer.

(** ** adminVerify: the handler *)

Module AdminVerify.

(** A handler step reads and writes the store and may throw; what it wrote
    before throwing stays written. *)
Definition M (A : Type) : Type := Db.t -> Result A * Db.t.

Definition ret {A : Type} (a : A) : M A := fun db => (Ok a, db).

Definition throw {A : Type} (e : Error) : M A := fun db => (Err e, db).

Definition bind {A B : Type} (m : M A) (k : A -> M B) : M B :=
  fun db =>
    match m db with
    | (Ok a, db') => k a db'
    | (Err e, db') => (Err e, db')
    end.

Definition read {A : Type} (q : Db.t -> A) : M A := fun db => (Ok (q db), db).

Definition write (f : Db.t -> Db.t) : M unit := fun db => (Ok tt, f db).

Notation "'do' x '<-' m ';' k" := (bind m (fun x => k))
  (at level 10, x name, m at level 100, k at level 200).

(** [prisma.$transaction([...])]: the writes take effect together; when one
    of them throws the store is left as it was before the first. *)
Fixpoint sequence (ops : list (M unit)) : M unit :=
  match ops with
  | [] => ret tt
  | op :: rest => do _ <- op; sequence rest
  end.

Definition transaction (ops : list (M unit)) : M unit :=
  fun db =>
    match sequence ops db with
    | (Ok u, db') => (Ok u, db')
    | (Err e, _) => (Err e, db)
    end.

(** A membership joined with its user ([include: {user: true}]). *)
Record Member : Type := {
  membership : Membership.t;
  user : User.t
}.

Record FoundOrg : Type := {
  team : Team.t;
  members : list Member
}.

(** [team.members] with [where: {role: "OWNER"}]. *)
Definition ownerMembers (db : Db.t) (teamId : Z) : list Member :=
  flat_map (fun m => match Db.findUser db (Membership.userId m) with
                     | Some u => [Build_Member m u]
                     | None => []
                     end)
    (filter (fun m => (Membership.teamId m =? teamId)
                      && MembershipRole_eqb (Membership.role m) OWNER)
       (Db.memberships db)).

(** The row that [prisma.team.findFirst] selects with
    [where: {id: orgId, isOrganization: true}], with its OWNER members. *)
Definition team_findFirst (orgId : Z) (db : Db.t) : option FoundOrg :=
  match find (fun t => (Team.id t =? orgId) && Team.isOrganization t) (Db.teams db) with
  | Some t => Some (Build_FoundOrg t (ownerMembers db (Team.id t)))
  | None => None
  end.

(** The key [Team.id] is a 32-bit signed integer in the store (the schema is
    not among the sources at hand). *)
Definition int4 (n : Z) : bool := (-2147483648 <=? n) && (n <=? 2147483647).

(** The call [prisma.team.findFirst]: the store rejects an [orgId] that does
    not fit the key column, with its out-of-range error, before it answers
    that no row matches. A row that matches has the id in its key, which the
    column can only hold when it fits; on a store whose team ids all fit,
    this is the range check followed by the selection. *)
Definition team_findFirst_call (orgId : Z) : M (option FoundOrg) :=
  fun db =>
    match team_findFirst orgId db with
    | Some org => (Ok (Some org), db)
    | None => if int4 orgId then (Ok None, db) else (Err ValueOutOfRange, db)
    end.

(** Replace the first row that satisfies [p]; [None] when there is none. *)
Fixpoint updateFirst {A : Type} (p : A -> bool) (f : A -> A) (l : list A) : option (list A) :=
  match l with
  | [] => None
  | x :: xs =>
      if p x then Some (f x :: xs)
      else match updateFirst p f xs with
           | Some xs' => Some (x :: xs')
           | None => None
           end
  end.

(** [prisma.organizationSettings.update] with [where: {organizationId}]: the
    store throws when no row has that key. *)
Definition organizationSettings_update (organizationId : Z) (isOrganizationVerified : bool)
    : M unit :=
  fun db =>
    match updateFirst
            (fun s => OrganizationSettings.organizationId s =? organizationId)
            (OrganizationSettings.set_isOrganizationVerified isOrganizationVerified)
            (Db.organizationSettings db) with
    | Some rows => (Ok tt, Db.set_organizationSettings rows db)
    | None => (Err RecordNotFound, db)
    end.

(** [teams: {some: {teamId: orgId}}] on a user. *)
Definition hasMembershipIn (db : Db.t) (orgId : Z) (userId : Z) : bool :=
  existsb (fun m => (Membership.userId m =? userId) && (Membership.teamId m =? orgId))
    (Db.memberships db).

(** [email: {endsWith: domain}]: the store matches the email against the
    pattern made of ["%"] followed by the operand as it is, so that a ["%"]
    or a ["_"] inside the operand is a wildcard too. An undefined operand
    places no condition. *)
Definition emailEndsWith (domain : option string) (email : string) : bool :=
  match domain with
  | Some d => Sql.like (String "%" d) email
  | None => true
  end.

(** [prisma.user.findMany] with the email and membership conditions. *)
Definition user_findMany (domain : option string) (orgId : Z) (db : Db.t) : list User.t :=
  filter (fun u => emailEndsWith domain (User.email u)
                   && hasMembershipIn db orgId (User.id u))
    (Db.users db).

(** [team: {parentId: orgId}] on a membership. *)
Definition teamHasParent (db : Db.t) (orgId : Z) (m : Membership.t) : bool :=
  match Db.findTeam db (Membership.teamId m) with
  | Some t => option_Z_eqb (Team.parentId t) (Some orgId)
  | None => false
  end.

(** The [where] of [prisma.membership.updateMany]. *)
Definition membershipTargeted (db : Db.t) (userIds : list Z) (orgId : Z)
    (m : Membership.t) : bool :=
  Js.includes userIds (Membership.userId m)
  && (teamHasParent db orgId m || (Membership.teamId m =? orgId)).

Definition membership_updateMany (userIds : list Z) (orgId : Z) : M unit :=
  write (fun db =>
    Db.set_memberships
      (map (fun m => if membershipTargeted db userIds orgId m
                     then Membership.set_accepted true m else m)
         (Db.memberships db))
      db).

Definition user_updateMany (userIds : list Z) (orgId : Z) : M unit :=
  write (fun db =>
    Db.set_users
      (map (fun u => if Js.includes userIds (User.id u)
                     then User.set_organizationId (Some orgId) u else u)
         (Db.users db))
      db).

Record Reply : Type := {
  ok : bool;
  message : string
}.

(** Each of the five calls to the store can also be rejected for a reason
    outside the data (the store cannot be reached, a statement is cancelled):
    the fault of a call is the error it throws then, [None] when the store
    carries the call out. *)
Record Faults : Type := {
  team_findFirst_fault : option Error;
  organizationSettings_update_fault : option Error;
  user_findMany_fault : option Error;
  membership_updateMany_fault : option Error;
  user_updateMany_fault : option Error
}.

Definition noFaults : Faults := Build_Faults None None None None None.

Definition attempt {A : Type} (fault : option Error) (call : M A) : M A :=
  match fault with
  | Some e => throw e
  | None => call
  end.

(** The handler on a store with the faults [F]. The update of the settings
    row is a call of its own, before the transaction: what it wrote stays
    written when a later call throws. *)
Definition adminVerifyHandlerWith (F : Faults) (orgId : Z) : M Reply :=
  do foundOrg <- attempt (team_findFirst_fault F) (team_findFirst_call orgId);
  match foundOrg with
  | None => throw (TRPCError FORBIDDEN "This team isnt a org or doesnt exist")
  | Some org =>
      match members org with
      | [] => throw TypeError
      | first :: _ =>
          let acceptedEmailDomain := nth_error (Js.split "@" (User.email (user first))) 1 in
          do _ <- attempt (organizationSettings_update_fault F)
                    (organizationSettings_update orgId true);
          do foundUsersWithMatchingEmailDomain <-
            attempt (user_findMany_fault F) (read (user_findMany acceptedEmailDomain orgId));
          let userIds := map User.id foundUsersWithMatchingEmailDomain in
          do _ <- transaction
                    [attempt (membership_updateMany_fault F)
                       (membership_updateMany userIds orgId);
                     attempt (user_updateMany_fault F) (user_updateMany userIds orgId)];
          ret (Build_Reply true
                 ("Verified Organization - Auto accepted all members ending in "
                  ++ Js.template_undefined acceptedEmailDomain)%string)
      end
  end.

(** The handler on a store that carries out every call. *)
Definition adminVerifyHandler (orgId : Z) : M Reply := adminVerifyHandlerWith noFaults orgId.

(** *** Sample data: an organization, its owner and two members *)

(** Organization 10 has the sub-team 11. Its owner is owner@acme.com; a@acme.com
    and b@other.com are invited to the organization and to the sub-team;
    c@acme.com belongs only to the unrelated team 12. *)
Definition sampleDb : Db.t :=
  Db.mk
    [ User.mk 1 "owner@acme.com" (Some "owner") None None;
      User.mk 2 "a@acme.com" (Some "a") None None;
      User.mk 3 "b@other.com" (Some "b") None None;
      User.mk 4 "c@acme.com" (Some "c") None None ]
    [ Team.mk 10 true "Acme" (Some "acme") None Js.JNull;
      Team.mk 11 false "Sales" (Some "sales") (Some 10) Js.JNull;
      Team.mk 12 false "Other" (Some "other") None Js.JNull ]
    [ Membership.mk 1 10 OWNER true;
      Membership.mk 2 10 MEMBER false;
      Membership.mk 2 11 MEMBER false;
      Membership.mk 2 12 MEMBER false;
      Membership.mk 3 10 MEMBER false;
      Membership.mk 3 11 ADMIN false;
      Membership.mk 4 12 MEMBER false ]
    []
    [ OrganizationSettings.mk 10 false ].

(** The same organization after its owner has been demoted to ADMIN. *)
Definition ownerlessDb : Db.t :=
  Db.set_memberships
    (Membership.mk 1 10 ADMIN true :: tl (Db.memberships sampleDb))
    sampleDb.

(** The same organization with another address of its owner: one on the
    domain a_me.com, and one without "@". *)
Definition withOwnerEmail (email : string) : Db.t :=
  Db.set_users
    (User.mk 1 email (Some "owner") None None :: tl (Db.users sampleDb))
    sampleDb.

Definition wildcardDb : Db.t := withOwnerEmail "owner@a_me.com".

Definition atLessDb : Db.t := withOwnerEmail "owner".

(** The store carries out every call but the last of the batch. *)
Definition lastWriteFails : Faults :=
  Build_Faults None None None None (Some StoreUnavailable).


End AdminVerify.

(** ** The statements of the spec about getByViewer *)

Import GetByViewer.

(** The output lists a group for team [teamId]. *)
Definition hasTeamGroup (out : Output.t) (teamId : Z) : Prop :=
  exists g, In g (Output.eventTypeGroups out) /\ EventTypeGroup.teamId g = Some teamId.

(** The team filter in the spec's words: the team's id is listed in
    [filters.teamIds], or the filter set has no team-id criterion at all. *)
Definition teamFilter_spec (f : Filters.t) (teamId : Z) : Prop :=
  (exists l, Filters.teamIds f = Some l /\ In teamId l) \/ Filters.teamIds f = None.

(** The spec's team-filter rule for one request: under an active filter set,
    the group of an accepted non-organization membership is in the output
    exactly when the team filter of the spec lets the team through. *)
Definition teamFilter_claim (E : Collaborators) (db : Db.t) (uid : Z)
    (input : option Input.t) : Prop :=
  forall f out m,
    input_filters input = Some f ->
    hasFilter E f = true ->
    getByViewerHandler E db uid input = Ok out ->
    In m (Query.userTeams db uid) ->
    TeamSel.isOrganization (MembershipSel.team m) = false ->
    (hasTeamGroup out (TeamSel.id (MembershipSel.team m))
     <-> teamFilter_spec f (TeamSel.id (MembershipSel.team m))).

(** The slug in the spec's words: nil for a team without slug; otherwise
    prefixed with "team/" in a routing-forms request or when the team has no
    parent, bare when the team has a parent. *)
Definition slug_spec (forRoutingForms : bool) (slug : option string)
    (parentId : option Z) : option string :=
  match slug with
  | None => None
  | Some s =>
      if forRoutingForms then Some ("team/" ++ s)%string
      else match parentId with
           | None => Some ("team/" ++ s)%string
           | Some _ => Some s
           end
  end.

(** The spec's slug rule for one request: every team group carries the slug
    of the spec for the team it was built from. *)
Definition slug_claim (E : Collaborators) (db : Db.t) (uid : Z)
    (input : option Input.t) : Prop :=
  forall out g,
    getByViewerHandler E db uid input = Ok out ->
    In g (Output.eventTypeGroups out) ->
    EventTypeGroup.teamId g <> None ->
    exists m,
      In m (Query.userTeams db uid)
      /\ EventTypeGroup.teamId g = Some (TeamSel.id (MembershipSel.team m))
      /\ Profile.slug (EventTypeGroup.profile g) =
           slug_spec (Js.truthy_bool (input_forRoutingForms input))
             (TeamSel.slug (MembershipSel.team m))
             (TeamSel.parentId (MembershipSel.team m)).

(** The viewer's accepted membership in team [teamId], if any. *)
Definition viewerMembershipIn (teams : list MembershipSel.t) (teamId : Z)
    : option MembershipSel.t :=
  find (fun m => TeamSel.id (MembershipSel.team m) =? teamId) teams.

(** The viewer's personal event types that are not managed: the rows reached
    through [user.eventTypes] that have no team and are owned by the viewer. *)
Definition personalUnmanagedRows (db : Db.t) (uid : Z) : list EventType.t :=
  filter (fun e => match EventType.schedulingType e with
                   | Some s => negb (SchedulingType_eqb s MANAGED)
                   | None => true
                   end)
    (Query.userEventTypeRows db uid uid).

(** A mapped event type shows a row of the store. *)
Definition showsRow (row : EventType.t) (e : MappedEventType.t) : Prop :=
  MappedEventType.id e = EventType.id row
  /\ MappedEventType.position e = EventType.position row
  /\ MappedEventType.schedulingType e = EventType.schedulingType row
  /\ MappedEventType.userId e = EventType.userId row.

(** The output of a request of the sample viewer, the group of team
    [teamId] in it, and the slug of that group. *)
Definition sampleOutput (input : option Input.t) : Output.t :=
  match getByViewerHandler sampleCollaborators GetByViewer.sampleDb 1 input with
  | Ok out => out
  | Err _ => Output.mk [] []
  end.

Definition sampleGroup (input : option Input.t) (teamId : Z) : option EventTypeGroup.t :=
  find (fun g => option_Z_eqb (EventTypeGroup.teamId g) (Some teamId))
    (Output.eventTypeGroups (sampleOutput input)).

Definition sampleSlugOf (input : option Input.t) (teamId : Z) : option (option string) :=
  option_map (fun g => Profile.slug (EventTypeGroup.profile g)) (sampleGroup input teamId).

(** The order of event types on the store's rows, on the selected shape and
    on the mapped shape. *)
Abbreviation rowOrder := (precedes EventType.position EventType.id).
Abbreviation selOrder := (precedes EventTypeSel.position EventTypeSel.id).
Abbreviation eventTypeOrder := (precedes MappedEventType.position MappedEventType.id).

(** ** The statements of the spec about adminVerify *)

(** The match in the spec's words: the email ends with [domain]. *)
Definition endsWith_spec (email domain : string) : Prop :=
  exists prefix, email = (prefix ++ domain)%string.

(** The domain has none of the characters that a pattern of the store can
    read otherwise than literally: the wildcards ["%"] and ["_"], and the
    backslash, the escape character of a pattern on the stores that have
    one. *)
Definition literalDomain (domain : string) : Prop :=
  forall c, In c (list_ascii_of_string domain) ->
    c <> "%"%char /\ c <> "_"%char /\ c <> "\"%char.

(** [userId] identifies a user who is a member of the organization and whose
    email ends with [domain]. *)
Definition domainMember (db : Db.t) (orgId : Z) (domain : string) (userId : Z) : Prop :=
  exists u,
    In u (Db.users db)
    /\ User.id u = userId
    /\ endsWith_spec (User.email u) domain
    /\ exists m, In m (Db.memberships db)
                 /\ Membership.userId m = userId
                 /\ Membership.teamId m = orgId.

(** The spec's statement about a missing organization, for one call: when
    no team with the id is flagged [isOrganization], the call fails with a
    FORBIDDEN error and leaves the store as it found it. *)
Definition forbidden_claim (orgId : Z) (db : Db.t) : Prop :=
  (forall t, In t (Db.teams db) ->
     ~ (Team.id t = orgId /\ Team.isOrganization t = true)) ->
  exists message,
    AdminVerify.adminVerifyHandler orgId db = (Err (TRPCError FORBIDDEN message), db).

(** The spec's statement about a found organization, for one call, as far as
    the reply and the untouched users go: when the organization is found, the
    call returns the confirmation message naming the part after "@" of its
    first OWNER member's email, and every user whose email does not end with
    that domain is in the store as before. *)
Definition verify_claim (orgId : Z) (db : Db.t) : Prop :=
  forall org,
    AdminVerify.team_findFirst orgId db = Some org ->
    exists first domain db',
      hd_error (AdminVerify.members org) = Some first
      /\ nth_error (Js.split "@" (User.email (AdminVerify.user first))) 1 = Some domain
      /\ AdminVerify.adminVerifyHandler orgId db
         = (Ok (AdminVerify.Build_Reply true
                  ("Verified Organization - Auto accepted all members ending in "
                   ++ domain)%string),
            db')
      /\ forall u, In u (Db.users db) ->
           ~ endsWith_spec (User.email u) domain -> In u (Db.users db').

(** The first of the two batch faults, the one the transaction throws. *)
Definition batchFault (F : AdminVerify.Faults) : option Error :=
  match AdminVerify.membership_updateMany_fault F with
  | Some e => Some e
  | None => AdminVerify.user_updateMany_fault F
  end.

(** The membership is in the organization or in one of its sub-teams. *)
Definition inOrgOrSubTeam (db : Db.t) (orgId : Z) (m : Membership.t) : Prop :=
  Membership.teamId m = orgId
  \/ exists t, Db.findTeam db (Membership.teamId m) = Some t
               /\ Team.parentId t = Some orgId.

(** ** adminVerify: the writes of a successful call, row by row *)

(** What [prisma.membership.updateMany] does to one row. *)
Definition acceptMembership (db : Db.t) (userIds : list Z) (orgId : Z)
    (m : Membership.t) : Membership.t :=
  if AdminVerify.membershipTargeted db userIds orgId m
  then Membership.set_accepted true m else m.

(** What [prisma.user.updateMany] does to one row. *)
Definition affiliateUser (userIds : list Z) (orgId : Z) (u : User.t) : User.t :=
  if Js.includes userIds (User.id u)
  then User.set_organizationId (Some orgId) u else u.

(** The store after the three writes, [rows] being the settings table after
    the update of the organization's row. *)
Definition verifiedDb (orgId : Z) (domain : option string)
    (rows : list OrganizationSettings.t) (db : Db.t) : Db.t :=
  let userIds := map User.id (AdminVerify.user_findMany domain orgId db) in
  Db.mk (map (affiliateUser userIds orgId) (Db.users db))
    (Db.teams db)
    (map (acceptMembership db userIds orgId) (Db.memberships db))
    (Db.eventTypes db)
    rows.

(** The string has no "@". *)
Definition noAt (s : string) : Prop := ~ In "@"%char (list_ascii_of_string s).

(** The sample organization without its settings row. *)
Definition settingsLessDb : Db.t :=
  Db.set_organizationSettings [] AdminVerify.sampleDb.


(** The sample store of getByViewer with one more event type of team 12,
    which has a description, is assigned to the viewer and is hosted by bob;
    and the output of an unfiltered request of the sample viewer on it. *)
Definition hostedDb : Db.t :=
  Db.mk (Db.users GetByViewer.sampleDb) (Db.teams GetByViewer.sampleDb)
    (Db.memberships GetByViewer.sampleDb)
    (Db.eventTypes GetByViewer.sampleDb
     ++ [EventType.mk 122 5 None (Some 12) None None (Some "Weekly sync") Js.JNull [1] [2]])
    [].

Definition hostedOutput : Output.t :=
  match getByViewerHandler sampleCollaborators hostedDb 1 noInput with
  | Ok out => out
  | Err _ => Output.mk [] []
  end.

(** * Properties *)

Unset Implicit Arguments.

(** Proof steps on the sample data: a goal settled by evaluation, the group
    found in a sample output, and a walk through the memberships of the
    sample viewer that keeps those whose team id fits [Hid]. *)
Ltac evaluated := vm_compute; first [reflexivity | tauto | discriminate].

Ltac found_group Hg := vm_compute in Hg; first [discriminate | injection Hg as <-].

Ltac each_sample_membership Hm Hid :=
  vm_compute in Hm;
  repeat (destruct Hm as [<- | Hm]; [vm_compute in Hid; try discriminate Hid |]);
  try contradiction.

(** ** Basic facts *)

Lemma includes_In (l : list Z) (x : Z) : Js.includes l x = true <-> In x l.
Proof.
  unfold Js.includes. rewrite existsb_exists. split.
  - intros (y & Hy & Heq). apply Z.eqb_eq in Heq. now subst.
  - intros H. exists x. split; [assumption | apply Z.eqb_refl].
Qed.

Lemma number_or_zero (n : Z) : Js.number_or (Some n) 0 = n.
Proof.
  unfold Js.number_or. destruct (n =? 0) eqn:H; [| reflexivity].
  apply Z.eqb_eq in H. now subst.
Qed.

Lemma MembershipRole_eqb_eq (a b : MembershipRole) :
  MembershipRole_eqb a b = true <-> a = b.
Proof. destruct a, b; simpl; split; congruence. Qed.

Lemma SchedulingType_eqb_eq (a b : SchedulingType) :
  SchedulingType_eqb a b = true <-> a = b.
Proof. destruct a, b; simpl; split; congruence. Qed.

Lemma option_Z_eqb_eq (a b : option Z) : option_Z_eqb a b = true <-> a = b.
Proof.
  destruct a as [x |], b as [y |]; simpl; try (split; congruence).
  rewrite Z.eqb_eq. split; congruence.
Qed.

Lemma bindR_Ok {A B : Type} (r : Result A) (k : A -> Result B) (b : B) :
  bindR r k = Ok b -> exists a, r = Ok a /\ k a = Ok b.
Proof.
  destruct r as [a | e]; simpl; intros H; [| discriminate].
  exists a. split; [reflexivity | assumption].
Qed.

Lemma mapR_Forall2 {A B : Type} (f : A -> Result B) (l : list A) (l' : list B) :
  mapR f l = Ok l' -> Forall2 (fun x y => f x = Ok y) l l'.
Proof.
  revert l'. induction l as [| x xs IH]; simpl; intros l' H.
  - injection H as <-. constructor.
  - apply bindR_Ok in H as (y & Hy & H).
    apply bindR_Ok in H as (ys & Hys & H).
    injection H as <-. constructor; [assumption | apply IH, Hys].
Qed.

Lemma mapR_In_image {A B : Type} (f : A -> Result B) (l : list A) (l' : list B) (y : B) :
  mapR f l = Ok l' -> In y l' -> exists x, In x l /\ f x = Ok y.
Proof.
  intros H. apply mapR_Forall2 in H.
  induction H as [| x y' l l' Hxy _ IH]; simpl; intros Hin.
  - contradiction.
  - destruct Hin as [-> | Hin].
    + exists x. split; [now left | assumption].
    + destruct (IH Hin) as (x' & Hx' & Hf). exists x'. split; [now right | assumption].
Qed.

Lemma mapR_In_source {A B : Type} (f : A -> Result B) (l : list A) (l' : list B) (x : A) :
  mapR f l = Ok l' -> In x l -> exists y, In y l' /\ f x = Ok y.
Proof.
  intros H. apply mapR_Forall2 in H.
  induction H as [| x' y l l' Hxy _ IH]; simpl; intros Hin.
  - contradiction.
  - destruct Hin as [-> | Hin].
    + exists y. split; [now left | assumption].
    + destruct (IH Hin) as (y' & Hy' & Hf). exists y'. split; [now right | assumption].
Qed.

(** ** Role strength *)

Lemma mshipToNumber_index (r : MembershipRole) : mshipToNumber r = role_index r.
Proof. destruct r; reflexivity. Qed.

(** C9. For all roles [a] and [b] of the ordered sequence MEMBER, ADMIN,
    OWNER, [compareMembership a b] is true if and only if the index of [a]
    exceeds the index of [b]; in particular it is false on (MEMBER, OWNER),
    true on (OWNER, MEMBER) and false on (ADMIN, ADMIN). *)
Theorem compareMembership_iff_index_exceeds :
  (forall a b : MembershipRole,
      compareMembership a b = true <-> role_index a > role_index b)
  /\ compareMembership MEMBER OWNER = false
  /\ compareMembership OWNER MEMBER = true
  /\ compareMembership ADMIN ADMIN = false.
Proof.
  split; [| repeat split].
  intros a b. unfold compareMembership.
  rewrite !mshipToNumber_index, Z.gtb_gt. reflexivity.
Qed.

(** ** Ordering by (position desc, id asc) *)

Section OrderByFacts.

Variable A : Type.
Variables (position id : A -> Z).

Local Abbreviation prec := (precedes position id).
Local Abbreviation precb := (precedesb position id).
Local Abbreviation ins := (insert position id).
Local Abbreviation sort := (orderBy position id).

Lemma precedesb_spec (a b : A) : precb a b = true <-> prec a b.
Proof.
  unfold precedesb, precedes.
  rewrite orb_true_iff, andb_true_iff, Z.ltb_lt, Z.eqb_eq, Z.leb_le. lia.
Qed.

Lemma precedes_total (a b : A) : prec a b \/ prec b a.
Proof. unfold precedes. lia. Qed.

Lemma precedes_trans (a b c : A) : prec a b -> prec b c -> prec a c.
Proof. unfold precedes. lia. Qed.

Lemma precedesb_false (a b : A) : precb a b = false -> prec b a.
Proof.
  intros H. destruct (precedes_total a b) as [Hab | Hba]; [| assumption].
  apply precedesb_spec in Hab. congruence.
Qed.

Lemma insert_perm (x : A) (l : list A) : Permutation (x :: l) (ins x l).
Proof.
  induction l as [| y l IH]; simpl.
  - apply Permutation_refl.
  - destruct (precb x y).
    + apply Permutation_refl.
    + eapply Permutation_trans; [apply perm_swap |].
      apply perm_skip, IH.
Qed.

Lemma orderBy_perm (l : list A) : Permutation l (sort l).
Proof.
  induction l as [| x l IH]; simpl.
  - apply perm_nil.
  - eapply Permutation_trans; [apply perm_skip, IH | apply insert_perm].
Qed.

Lemma insert_sorted (x : A) (l : list A) :
  StronglySorted prec l -> StronglySorted prec (ins x l).
Proof.
  induction 1 as [| y l Hl IH Hy]; simpl.
  - constructor; constructor.
  - destruct (precb x y) eqn:Hxy.
    + apply precedesb_spec in Hxy.
      constructor; [constructor; assumption |].
      constructor; [assumption |].
      eapply Forall_impl; [| exact Hy].
      intros z Hz. eapply precedes_trans; eassumption.
    + apply precedesb_false in Hxy.
      constructor; [assumption |].
      eapply Permutation_Forall; [apply insert_perm |].
      constructor; assumption.
Qed.

Lemma orderBy_sorted (l : list A) : StronglySorted prec (sort l).
Proof.
  induction l as [| x l IH]; simpl.
  - constructor.
  - apply insert_sorted, IH.
Qed.

Lemma orderBy_In (l : list A) (x : A) : In x (sort l) <-> In x l.
Proof.
  split; intros H.
  - eapply Permutation_in; [apply Permutation_sym, orderBy_perm | exact H].
  - eapply Permutation_in; [apply orderBy_perm | exact H].
Qed.

(** Dropping elements keeps a list ordered. *)
Lemma filter_sorted (p : A -> bool) (l : list A) :
  StronglySorted prec l -> StronglySorted prec (filter p l).
Proof.
  induction 1 as [| y l Hl IH Hy]; simpl.
  - constructor.
  - destruct (p y).
    + constructor; [assumption |].
      apply Forall_forall. intros z Hz. apply filter_In in Hz.
      rewrite Forall_forall in Hy. apply Hy, Hz.
    + assumption.
Qed.

(** An ordered list is left as it is. *)
Lemma orderBy_sorted_id (l : list A) :
  StronglySorted prec l -> sort l = l.
Proof.
  induction 1 as [| y l Hl IH Hy]; simpl.
  - reflexivity.
  - rewrite IH. destruct l as [| z l']; simpl.
    + reflexivity.
    + inversion Hy as [| ? ? Hyz _]; subst.
      apply precedesb_spec in Hyz. now rewrite Hyz.
Qed.

Lemma insert_before_all (x : A) (l : list A) :
  Forall (prec x) l -> ins x l = x :: l.
Proof.
  destruct 1 as [| y l Hxy _]; simpl; [reflexivity |].
  apply precedesb_spec in Hxy. now rewrite Hxy.
Qed.

Lemma filter_insert (p : A -> bool) (x : A) (l : list A) :
  StronglySorted prec l ->
  filter p (ins x l) = if p x then ins x (filter p l) else filter p l.
Proof.
  induction 1 as [| y l Hl IH Hy]; simpl.
  - destruct (p x); reflexivity.
  - destruct (precb x y) eqn:Hxy; simpl.
    + destruct (p x); [| reflexivity].
      symmetry. apply insert_before_all.
      apply precedesb_spec in Hxy.
      assert (Hall : Forall (prec x) (y :: l)).
      { constructor; [exact Hxy |]. eapply Forall_impl; [| exact Hy].
        intros z Hz. eapply precedes_trans; eassumption. }
      apply Forall_forall. intros z Hz.
      rewrite Forall_forall in Hall. apply Hall.
      change (In z (filter p (y :: l))) in Hz. now apply filter_In in Hz.
    + rewrite IH. destruct (p y), (p x); simpl; try reflexivity. now rewrite Hxy.
Qed.

(** Ordering and dropping elements commute. *)
Lemma filter_orderBy (p : A -> bool) (l : list A) :
  filter p (sort l) = sort (filter p l).
Proof.
  induction l as [| x l IH]; simpl; [reflexivity |].
  rewrite filter_insert by apply orderBy_sorted.
  rewrite IH. destruct (p x); reflexivity.
Qed.

(** Order carries over to a list whose records have the same keys. *)
Lemma sorted_same_keys (B : Type) (position' id' : B -> Z) (l : list A) (l' : list B) :
  Forall2 (fun x y => position' y = position x /\ id' y = id x) l l' ->
  StronglySorted prec l -> StronglySorted (precedes position' id') l'.
Proof.
  induction 1 as [| x y l l' [Hp Hi] HF IH]; intros Hs.
  - constructor.
  - inversion Hs as [| ? ? Hs' Hall]; subst.
    constructor; [apply IH, Hs' |].
    clear IH Hs Hs'. induction HF as [| x' y' l l' [Hp' Hi'] HF IH'].
    + constructor.
    + inversion Hall as [| ? ? Hx Hall']; subst.
      constructor; [| apply IH', Hall'].
      unfold precedes in *. rewrite Hp, Hi, Hp', Hi'. exact Hx.
Qed.

End OrderByFacts.

(** ** getByViewer: how the output is assembled *)

Section GetByViewerFacts.

Variable E : Collaborators.

Lemma user_findUnique_Some (db : Db.t) (uid w : Z) (user : UserSel.t) :
  Query.user_findUnique db uid w = Some user ->
  UserSel.id user = uid
  /\ UserSel.teams user = Query.userTeams db uid
  /\ UserSel.eventTypes user = Query.userEventTypes db uid w.
Proof.
  unfold Query.user_findUnique, Db.findUser.
  destruct (find _ (Db.users db)) as [u |] eqn:Hfind; [| discriminate].
  intros H. injection H as <-. simpl.
  apply find_some in Hfind as [_ Hid]. apply Z.eqb_eq in Hid.
  repeat split; assumption.
Qed.

Lemma normalizeMembership_Ok (m m' : MembershipSel.t) :
  normalizeMembership E m = Ok m' ->
  exists metadata,
    m' = MembershipSel.mk (MembershipSel.role m)
           (TeamSel.set_metadata metadata (MembershipSel.team m)).
Proof.
  unfold normalizeMembership. intros H.
  apply bindR_Ok in H as (md & _ & H). injection H as <-. now exists md.
Qed.

Lemma membershipKept_normalized (input : option Input.t) (m m' : MembershipSel.t) :
  normalizeMembership E m = Ok m' ->
  membershipKept E input m' = membershipKept E input m.
Proof.
  intros H. apply normalizeMembership_Ok in H as (md & ->). reflexivity.
Qed.

(** What [teamGroup] returns for a membership, field by field. *)
Lemma teamGroup_Ok (uid : Z) (input : option Input.t)
    (tms : list TeamMembership.t) (m : MembershipSel.t) (g : EventTypeGroup.t) :
  teamGroup E uid input tms m = Ok g ->
  exists mapped,
    mapR (mapEventType E) (TeamSel.eventTypes (MembershipSel.team m)) = Ok mapped
    /\ EventTypeGroup.teamId g = Some (TeamSel.id (MembershipSel.team m))
    /\ EventTypeGroup.parentId g = TeamSel.parentId (MembershipSel.team m)
    /\ EventTypeGroup.membershipRole g =
         Some (strongerOr
                 (findOrgMembership tms (TeamSel.parentId (MembershipSel.team m)))
                 (MembershipSel.role m) (MembershipSel.role m))
    /\ Profile.slug (EventTypeGroup.profile g) =
         resolveSlug input (TeamSel.slug (MembershipSel.team m))
           (TeamSel.parentId (MembershipSel.team m))
    /\ GroupMetadata.readOnly (EventTypeGroup.metadata g) =
         resolveReadOnly
           (findOrgMembership tms (TeamSel.parentId (MembershipSel.team m)))
           (MembershipSel.role m) (TeamSel.parentId (MembershipSel.team m))
    /\ EventTypeGroup.eventTypes g =
         teamGroupEventTypes E uid input (MembershipSel.role m) mapped.
Proof.
  unfold teamGroup. intros H.
  apply bindR_Ok in H as (md & _ & H).
  apply bindR_Ok in H as (mapped & Hmapped & H).
  injection H as <-. exists mapped. simpl in *. repeat split. exact Hmapped.
Qed.

(** A call that returns has read the viewer and built the personal group, if
    it is included, followed by one group per membership that is kept. *)
Lemma getByViewerHandler_Ok (db : Db.t) (uid : Z) (input : option Input.t)
    (out : Output.t) :
  getByViewerHandler E db uid input = Ok out ->
  exists user memberships userEventTypes teamGroups,
    Query.user_findUnique db uid
      (getPrismaWhereUserIdFromFilter E uid (input_filters input)) = Some user
    /\ mapR (normalizeMembership E) (Query.userTeams db uid) = Ok memberships
    /\ mapR (mapEventType E) (UserSel.eventTypes user) = Ok userEventTypes
    /\ mapR (teamGroup E uid input (teamMembershipsOf (Query.userTeams db uid)))
         (filter (membershipKept E input) memberships) = Ok teamGroups
    /\ Output.eventTypeGroups out =
         (if personalGroupIncluded E input uid
          then [personalGroup E user (filter notManaged userEventTypes)]
          else []) ++ teamGroups.
Proof.
  unfold getByViewerHandler. intros H.
  apply bindR_Ok in H as (_ & _ & H).
  destruct (Query.user_findUnique db uid _) as [user |] eqn:Huser; [| discriminate].
  destruct (user_findUnique_Some _ _ _ _ Huser) as (Hid & Hteams & _).
  unfold groupsOfUser in H. rewrite Hid, Hteams in H.
  apply bindR_Ok in H as (memberships & Hm & H).
  apply bindR_Ok in H as (uets & Hu & H).
  apply bindR_Ok in H as (tgs & Ht & H).
  injection H as <-. exists user, memberships, uets, tgs. simpl.
  repeat split; assumption.
Qed.

(** A rejection by the rate limiter ends the call before any query. *)
Lemma getByViewerHandler_rate_limited (db : Db.t) (uid : Z) (input : option Input.t)
    (e : Error) :
  checkRateLimitAndThrowError E uid = Err e ->
  getByViewerHandler E db uid input = Err e.
Proof. unfold getByViewerHandler. now intros ->. Qed.

(** A viewer id that does not resolve is an internal error. *)
Lemma getByViewerHandler_unknown_viewer (db : Db.t) (uid : Z) (input : option Input.t) :
  checkRateLimitAndThrowError E uid = Ok tt ->
  Db.findUser db uid = None ->
  getByViewerHandler E db uid input
  = Err (TRPCError INTERNAL_SERVER_ERROR "INTERNAL_SERVER_ERROR").
Proof.
  unfold getByViewerHandler, Query.user_findUnique. now intros -> ->.
Qed.

(** Every group with a team id was built from one of the viewer's accepted
    memberships that passed the membership filter. *)
Lemma team_group_origin (db : Db.t) (uid : Z) (input : option Input.t)
    (out : Output.t) (g : EventTypeGroup.t) :
  getByViewerHandler E db uid input = Ok out ->
  In g (Output.eventTypeGroups out) ->
  EventTypeGroup.teamId g <> None ->
  exists m metadata,
    In m (Query.userTeams db uid)
    /\ membershipKept E input m = true
    /\ teamGroup E uid input (teamMembershipsOf (Query.userTeams db uid))
         (MembershipSel.mk (MembershipSel.role m)
            (TeamSel.set_metadata metadata (MembershipSel.team m))) = Ok g.
Proof.
  intros H Hin Hteam.
  apply getByViewerHandler_Ok in H as (user & ms & uets & tgs & _ & Hms & _ & Htgs & Hout).
  rewrite Hout in Hin. apply in_app_or in Hin as [Hin | Hin].
  - destruct (personalGroupIncluded E input uid); simpl in Hin; [| contradiction].
    destruct Hin as [<- | []]. now elim Hteam.
  - destruct (mapR_In_image _ _ _ _ Htgs Hin) as (m' & Hm' & Hg).
    apply filter_In in Hm' as [Hm' Hkept].
    destruct (mapR_In_image _ _ _ _ Hms Hm') as (m & Hm & Hnorm).
    rewrite (membershipKept_normalized input _ _ Hnorm) in Hkept.
    apply normalizeMembership_Ok in Hnorm as (md & ->).
    exists m, md. repeat split; assumption.
Qed.

(** Every accepted membership that passes the membership filter has its group
    in the output. *)
Lemma team_group_present (db : Db.t) (uid : Z) (input : option Input.t)
    (out : Output.t) (m : MembershipSel.t) :
  getByViewerHandler E db uid input = Ok out ->
  In m (Query.userTeams db uid) ->
  membershipKept E input m = true ->
  exists g,
    In g (Output.eventTypeGroups out)
    /\ EventTypeGroup.teamId g = Some (TeamSel.id (MembershipSel.team m)).
Proof.
  intros H Hm Hkept.
  apply getByViewerHandler_Ok in H as (user & ms & uets & tgs & _ & Hms & _ & Htgs & Hout).
  destruct (mapR_In_source _ _ _ _ Hms Hm) as (m' & Hm' & Hnorm).
  assert (Hkept' : membershipKept E input m' = true)
    by now rewrite (membershipKept_normalized input _ _ Hnorm).
  assert (Hin : In m' (filter (membershipKept E input) ms))
    by (apply filter_In; now split).
  destruct (mapR_In_source _ _ _ _ Htgs Hin) as (g & Hg & Hbuilt).
  exists g. split.
  - rewrite Hout. apply in_or_app. now right.
  - apply teamGroup_Ok in Hbuilt as (_ & _ & Hid & _).
    apply normalizeMembership_Ok in Hnorm as (md & ->). exact Hid.
Qed.

End GetByViewerFacts.

(** ** getByViewer: the team filter *)

Section TeamFilter.

Variable E : Collaborators.

Lemma teamIdsInclude_listed (f : Filters.t) (id : Z) :
  teamIdsInclude (Some f) (Some id) = true
  <-> exists l, Filters.teamIds f = Some l /\ In id l.
Proof.
  unfold teamIdsInclude. rewrite number_or_zero.
  destruct (Filters.teamIds f) as [l |].
  - rewrite includes_In. split.
    + intros H. now exists l.
    + intros (l' & Heq & H). now injection Heq as <-.
  - split; [discriminate | intros (l & Heq & _); discriminate].
Qed.

Lemma membershipKept_active (input : option Input.t) (f : Filters.t)
    (m : MembershipSel.t) :
  input_filters input = Some f ->
  hasFilter E f = true ->
  TeamSel.isOrganization (MembershipSel.team m) = false ->
  membershipKept E input m = teamIdsInclude (Some f) (Some (TeamSel.id (MembershipSel.team m))).
Proof.
  intros Hf Hactive Horg. unfold membershipKept, noActiveFilter.
  now rewrite Horg, Hf, Hactive.
Qed.

(** C1, as amended. Under an active filter set, the group of an accepted
    non-organization membership is in [eventTypeGroups] if and only if the
    team's id is listed in [filters.teamIds]; a filter set without a team-id
    criterion lets no team group through. *)
Theorem team_group_included_iff_listed (db : Db.t) (uid : Z)
    (input : option Input.t) (f : Filters.t) (out : Output.t) (m : MembershipSel.t) :
  input_filters input = Some f ->
  hasFilter E f = true ->
  getByViewerHandler E db uid input = Ok out ->
  In m (Query.userTeams db uid) ->
  TeamSel.isOrganization (MembershipSel.team m) = false ->
  (hasTeamGroup out (TeamSel.id (MembershipSel.team m))
   <-> exists l, Filters.teamIds f = Some l /\ In (TeamSel.id (MembershipSel.team m)) l).
Proof.
  intros Hf Hactive Hout Hm Horg. split.
  - intros (g & Hg & Hid).
    destruct (team_group_origin E db uid input out g Hout Hg) as (m' & md & _ & Hkept & Hbuilt).
    { rewrite Hid. discriminate. }
    apply teamGroup_Ok in Hbuilt as (_ & _ & Hid' & _). simpl in Hid'.
    rewrite Hid in Hid'. injection Hid' as Hid'. rewrite Hid'.
    apply teamIdsInclude_listed.
    unfold membershipKept, noActiveFilter in Hkept. rewrite Hf, Hactive in Hkept.
    destruct (TeamSel.isOrganization (MembershipSel.team m')); [discriminate |].
    exact Hkept.
  - intros Hlisted. apply teamIdsInclude_listed in Hlisted.
    apply (team_group_present E db uid input out m Hout Hm).
    now rewrite (membershipKept_active input f m Hf Hactive Horg).
Qed.

(** Without an active filter set every accepted non-organization membership
    has its group in the output. *)
Lemma team_group_included_when_inactive (db : Db.t) (uid : Z)
    (input : option Input.t) (out : Output.t) (m : MembershipSel.t) :
  noActiveFilter E (input_filters input) = true ->
  getByViewerHandler E db uid input = Ok out ->
  In m (Query.userTeams db uid) ->
  TeamSel.isOrganization (MembershipSel.team m) = false ->
  hasTeamGroup out (TeamSel.id (MembershipSel.team m)).
Proof.
  intros Hinactive Hout Hm Horg.
  apply (team_group_present E db uid input out m Hout Hm).
  unfold membershipKept. now rewrite Horg, Hinactive.
Qed.

End TeamFilter.

(** The membership of the sample viewer in team [teamId]. *)
Lemma sample_membership (teamId : Z) :
  In teamId [11; 12; 13; 15] ->
  exists m,
    In m (Query.userTeams GetByViewer.sampleDb 1)
    /\ TeamSel.id (MembershipSel.team m) = teamId
    /\ TeamSel.isOrganization (MembershipSel.team m) = false.
Proof.
  intros H. simpl in H.
  destruct H as [<- | [<- | [<- | [<- | []]]]]; eexists.
  - split; [vm_compute; right; left; reflexivity | split; reflexivity].
  - split; [vm_compute; do 2 right; left; reflexivity | split; reflexivity].
  - split; [vm_compute; do 3 right; left; reflexivity | split; reflexivity].
  - split; [vm_compute; do 4 right; left; reflexivity | split; reflexivity].
Qed.

(** C1 fails as stated: the sample viewer belongs to team 12, and a filter
    set that names only [userIds] has no team-id criterion, yet the group of
    team 12 is not in the output. *)
Lemma teamFilter_claim_fails :
  ~ teamFilter_claim sampleCollaborators GetByViewer.sampleDb 1
      (inputWithFilters None (Some [1])).
Proof.
  intros claim.
  destruct (sample_membership 12) as (m & Hm & Hid & Horg); [simpl; tauto |].
  specialize (claim (Filters.mk None (Some [1])) _ m eq_refl eq_refl eq_refl Hm Horg).
  rewrite Hid in claim.
  assert (Hgroup : hasTeamGroup
            (Output.mk
               (match getByViewerHandler sampleCollaborators GetByViewer.sampleDb 1
                        (inputWithFilters None (Some [1])) with
                | Ok o => Output.eventTypeGroups o
                | Err _ => []
                end) []) 12).
  { destruct claim as [_ claim].
    destruct claim as (g & Hg & Hteam); [right; reflexivity |].
    exists g. split; assumption. }
  destruct Hgroup as (g & Hg & Hteam). vm_compute in Hg.
  destruct Hg as [<- | []]. discriminate.
Qed.

(** The amended C1 on the sample viewer: with [teamIds = [11]], team 11 is
    listed and its group is in the output. *)
Lemma team_group_included_iff_listed_witness :
  exists out m,
    getByViewerHandler sampleCollaborators GetByViewer.sampleDb 1
      (inputWithFilters (Some [11]) None) = Ok out
    /\ TeamSel.id (MembershipSel.team m) = 11
    /\ (hasTeamGroup out (TeamSel.id (MembershipSel.team m))
        <-> exists l, Some [11] = Some l /\ In (TeamSel.id (MembershipSel.team m)) l).
Proof.
  eexists.
  exists (MembershipSel.mk MEMBER
            (Query.selectTeam GetByViewer.sampleDb
               (Team.mk 11 false "Sales" (Some "sales") (Some 10) Js.JNull))).
  split; [vm_compute; reflexivity |].
  split; [reflexivity |].
  apply (team_group_included_iff_listed sampleCollaborators GetByViewer.sampleDb 1
           (inputWithFilters (Some [11]) None) (Filters.mk (Some [11]) None)).
  - reflexivity.
  - reflexivity.
  - vm_compute. reflexivity.
  - vm_compute. right. left. reflexivity.
  - reflexivity.
Defined.

(** A group found in a sample output belongs to it and has the team id
    that was looked for. *)
Lemma sampleGroup_Some (input : option Input.t) (teamId : Z) (g : EventTypeGroup.t) :
  sampleGroup input teamId = Some g ->
  In g (Output.eventTypeGroups (sampleOutput input))
  /\ EventTypeGroup.teamId g = Some teamId.
Proof.
  unfold sampleGroup. intros H. apply find_some in H as [Hin Hid].
  split; [exact Hin | now apply option_Z_eqb_eq].
Defined.

(** ** getByViewer: the slug of a team group *)

Lemma truthy_string_false (slug : option string) :
  Js.truthy_string slug = false <-> slug = None \/ slug = Some ""%string.
Proof.
  destruct slug as [s |]; simpl.
  - rewrite negb_false_iff, String.eqb_eq. split.
    + intros ->. now right.
    + intros [H | H]; [discriminate | now injection H].
  - split; [now left | reflexivity].
Qed.

Lemma truthy_number_false (n : option Z) :
  Js.truthy_number n = false <-> n = None \/ n = Some 0.
Proof.
  destruct n as [z |]; simpl.
  - rewrite negb_false_iff, Z.eqb_eq. split.
    + intros ->. now right.
    + intros [H | H]; [discriminate | now injection H].
  - split; [now left | reflexivity].
Qed.

Lemma truthy_bool_true (b : option bool) : Js.truthy_bool b = true <-> b = Some true.
Proof. destruct b as [[|] |]; simpl; split; congruence. Qed.

(** C2, as amended. For every team group: in a routing-forms request the
    slug is "team/" followed by the team's slug when the team has a slug;
    otherwise the slug is nil when the team's slug is null or empty, "team/"
    followed by the team's slug when the team has no parent (a parent id of
    null or 0), and the bare slug when the team has a parent. *)
Theorem team_group_slug (E : Collaborators) (db : Db.t) (uid : Z)
    (input : option Input.t) (out : Output.t) (g : EventTypeGroup.t) :
  getByViewerHandler E db uid input = Ok out ->
  In g (Output.eventTypeGroups out) ->
  EventTypeGroup.teamId g <> None ->
  exists m,
    In m (Query.userTeams db uid)
    /\ EventTypeGroup.teamId g = Some (TeamSel.id (MembershipSel.team m))
    /\ (input_forRoutingForms input = Some true ->
        forall s, TeamSel.slug (MembershipSel.team m) = Some s ->
          Profile.slug (EventTypeGroup.profile g) = Some ("team/" ++ s)%string)
    /\ (input_forRoutingForms input <> Some true ->
        (TeamSel.slug (MembershipSel.team m) = None
         \/ TeamSel.slug (MembershipSel.team m) = Some ""%string ->
         Profile.slug (EventTypeGroup.profile g) = None)
        /\ (forall s,
              TeamSel.slug (MembershipSel.team m) = Some s -> s <> ""%string ->
              TeamSel.parentId (MembershipSel.team m) = None
              \/ TeamSel.parentId (MembershipSel.team m) = Some 0 ->
              Profile.slug (EventTypeGroup.profile g) = Some ("team/" ++ s)%string)
        /\ (forall s p,
              TeamSel.slug (MembershipSel.team m) = Some s -> s <> ""%string ->
              TeamSel.parentId (MembershipSel.team m) = Some p -> p <> 0 ->
              Profile.slug (EventTypeGroup.profile g) = Some s)).
Proof.
  intros Hout Hg Hteam.
  destruct (team_group_origin E db uid input out g Hout Hg Hteam)
    as (m & md & Hm & _ & Hbuilt).
  apply teamGroup_Ok in Hbuilt as (_ & _ & Hid & _ & _ & Hslug & _). simpl in Hid, Hslug.
  exists m. split; [exact Hm |]. split; [exact Hid |].
  rewrite Hslug. unfold resolveSlug. split.
  - intros Hrouting s Hs. apply truthy_bool_true in Hrouting.
    now rewrite Hrouting, Hs.
  - intros Hrouting.
    assert (Hr : Js.truthy_bool (input_forRoutingForms input) = false).
    { destruct (Js.truthy_bool _) eqn:Hb; [| reflexivity].
      apply truthy_bool_true in Hb. contradiction. }
    rewrite Hr. split; [| split].
    + intros Hnil. apply truthy_string_false in Hnil. now rewrite Hnil.
    + intros s Hs Hne Hpar. apply truthy_number_false in Hpar.
      rewrite Hpar, Hs. simpl.
      destruct (String.eqb_spec s ""); [contradiction | reflexivity].
    + intros s p Hs Hne Hpar Hp. rewrite Hs, Hpar. simpl.
      destruct (String.eqb_spec s ""); [contradiction |].
      destruct (Z.eqb_spec p 0); [contradiction | reflexivity].
Qed.

(** C2 fails as stated, twice. In a routing-forms request the group of team
    13, whose slug is null, has the slug "team/null"; and outside routing
    forms the group of team 15, whose slug is the empty string and which has
    no parent, has no slug at all where the spec's rule gives "team/". *)
Lemma slug_claim_fails :
  ~ slug_claim sampleCollaborators GetByViewer.sampleDb 1 routingFormsInput
  /\ sampleSlugOf routingFormsInput 13 = Some (Some "team/null"%string)
  /\ ~ slug_claim sampleCollaborators GetByViewer.sampleDb 1 noInput
  /\ sampleSlugOf noInput 15 = Some None.
Proof.
  split; [| split; [reflexivity | split; [| reflexivity]]].
  - intros claim.
    destruct (sampleGroup routingFormsInput 13) as [g |] eqn:Hg; [| found_group Hg].
    destruct (sampleGroup_Some _ _ _ Hg) as [Hin Hteam].
    destruct (claim (sampleOutput routingFormsInput) g) as (m & Hm & Hid & Hslug);
      [evaluated | exact Hin | rewrite Hteam; discriminate |].
    found_group Hg. each_sample_membership Hm Hid.
    vm_compute in Hslug. discriminate.
  - intros claim.
    destruct (sampleGroup noInput 15) as [g |] eqn:Hg; [| found_group Hg].
    destruct (sampleGroup_Some _ _ _ Hg) as [Hin Hteam].
    destruct (claim (sampleOutput noInput) g) as (m & Hm & Hid & Hslug);
      [evaluated | exact Hin | rewrite Hteam; discriminate |].
    found_group Hg. each_sample_membership Hm Hid.
    vm_compute in Hslug. discriminate.
Qed.

(** The amended C2 on the sample viewer: outside routing forms the group of
    the sub-team 11 carries the bare slug of the team. *)
Lemma team_group_slug_witness :
  exists g,
    sampleGroup noInput 11 = Some g
    /\ Profile.slug (EventTypeGroup.profile g) = Some "sales"%string.
Proof.
  destruct (sampleGroup noInput 11) as [g |] eqn:Hg; [| found_group Hg].
  exists g. split; [reflexivity |].
  destruct (sampleGroup_Some _ _ _ Hg) as [Hin Hteam].
  destruct (team_group_slug sampleCollaborators GetByViewer.sampleDb 1 noInput
              (sampleOutput noInput) g) as (m & Hm & Hid & _ & Hplain);
    [evaluated | exact Hin | rewrite Hteam; discriminate |].
  destruct Hplain as (_ & _ & Hbare); [discriminate |].
  found_group Hg. each_sample_membership Hm Hid.
  apply (Hbare "sales"%string 10); [reflexivity | discriminate | reflexivity | discriminate].
Defined.

(** ** getByViewer: effective role and read-only flag *)

Lemma findOrgMembership_viewer (teams : list MembershipSel.t) (p : Z) :
  findOrgMembership (teamMembershipsOf teams) (Some p)
  = option_map MembershipSel.role (viewerMembershipIn teams p).
Proof.
  unfold findOrgMembership, viewerMembershipIn, teamMembershipsOf.
  induction teams as [| m teams IH]; simpl.
  - reflexivity.
  - destruct (TeamSel.id (MembershipSel.team m) =? p); [reflexivity | exact IH].
Qed.

Lemma findOrgMembership_no_parent (tms : list TeamMembership.t) :
  findOrgMembership tms None = None.
Proof.
  unfold findOrgMembership. induction tms as [| t tms IH]; simpl; [reflexivity | exact IH].
Qed.

Lemma strongerOr_is_max (o role : MembershipRole) :
  (strongerOr (Some o) role role = o \/ strongerOr (Some o) role role = role)
  /\ role_index (strongerOr (Some o) role role) = Z.max (role_index o) (role_index role).
Proof. destruct o, role; vm_compute; split; auto. Qed.

Lemma readOnly_iff_member (org : option MembershipRole) (role : MembershipRole)
    (parentId : option Z) :
  parentId <> Some 0 ->
  (parentId = None -> org = None) ->
  (resolveReadOnly org role parentId = true <-> strongerOr org role role = MEMBER).
Proof.
  intros Hzero Hnone. unfold resolveReadOnly.
  destruct parentId as [p |]; simpl.
  - destruct (Z.eqb_spec p 0) as [-> | _]; [now elim Hzero |]. simpl.
    destruct org as [o |]; [destruct o |]; destruct role; vm_compute; split; congruence.
  - rewrite (Hnone eq_refl). destruct role; vm_compute; split; congruence.
Qed.

(** C4. For every team group: when the team has a parent and the viewer has
    an accepted membership in that parent, [membershipRole] is the stronger of
    the parent-organization role and the native team role, in the order
    MEMBER, ADMIN, OWNER; otherwise it is the native team role; and, the
    parent id being a database key and so never 0, [metadata.readOnly] is
    true exactly when this effective role is MEMBER. *)
Theorem team_group_effective_role (E : Collaborators) (db : Db.t) (uid : Z)
    (input : option Input.t) (out : Output.t) (g : EventTypeGroup.t) :
  getByViewerHandler E db uid input = Ok out ->
  In g (Output.eventTypeGroups out) ->
  EventTypeGroup.teamId g <> None ->
  exists m,
    In m (Query.userTeams db uid)
    /\ EventTypeGroup.teamId g = Some (TeamSel.id (MembershipSel.team m))
    /\ (forall p pm,
          TeamSel.parentId (MembershipSel.team m) = Some p ->
          viewerMembershipIn (Query.userTeams db uid) p = Some pm ->
          exists r,
            EventTypeGroup.membershipRole g = Some r
            /\ (r = MembershipSel.role pm \/ r = MembershipSel.role m)
            /\ role_index r
               = Z.max (role_index (MembershipSel.role pm))
                   (role_index (MembershipSel.role m)))
    /\ ((TeamSel.parentId (MembershipSel.team m) = None
         \/ exists p, TeamSel.parentId (MembershipSel.team m) = Some p
                      /\ viewerMembershipIn (Query.userTeams db uid) p = None) ->
        EventTypeGroup.membershipRole g = Some (MembershipSel.role m))
    /\ (TeamSel.parentId (MembershipSel.team m) <> Some 0 ->
        (GroupMetadata.readOnly (EventTypeGroup.metadata g) = true
         <-> EventTypeGroup.membershipRole g = Some MEMBER)).
Proof.
  intros Hout Hg Hteam.
  destruct (team_group_origin E db uid input out g Hout Hg Hteam)
    as (m & md & Hm & _ & Hbuilt).
  apply teamGroup_Ok in Hbuilt as (_ & _ & Hid & _ & Hrole & _ & Hro & _).
  simpl in Hid, Hrole, Hro.
  exists m. split; [exact Hm |]. split; [exact Hid |].
  rewrite Hrole, Hro. split; [| split].
  - intros p pm Hp Hpm. rewrite Hp, findOrgMembership_viewer, Hpm. simpl.
    eexists. split; [reflexivity |].
    apply (strongerOr_is_max (MembershipSel.role pm) (MembershipSel.role m)).
  - intros [Hp | (p & Hp & Hnone)]; rewrite Hp.
    + now rewrite findOrgMembership_no_parent.
    + now rewrite findOrgMembership_viewer, Hnone.
  - intros Hzero.
    rewrite (readOnly_iff_member _ (MembershipSel.role m) _ Hzero).
    + split; congruence.
    + intros ->. apply findOrgMembership_no_parent.
Qed.

(** C4 on the sample viewer, MEMBER of the sub-team 11 and ADMIN of its
    parent organization: the group of team 11 has the role ADMIN and is not
    read-only. *)
Lemma team_group_effective_role_witness :
  exists g,
    sampleGroup noInput 11 = Some g
    /\ EventTypeGroup.membershipRole g = Some ADMIN
    /\ (GroupMetadata.readOnly (EventTypeGroup.metadata g) = true
        <-> EventTypeGroup.membershipRole g = Some MEMBER).
Proof.
  destruct (sampleGroup noInput 11) as [g |] eqn:Hg; [| found_group Hg].
  exists g. split; [reflexivity |].
  destruct (sampleGroup_Some _ _ _ Hg) as [Hin Hteam].
  destruct (team_group_effective_role sampleCollaborators GetByViewer.sampleDb 1 noInput
              (sampleOutput noInput) g) as (m & Hm & Hid & Hparent & _ & Hro);
    [evaluated | exact Hin | rewrite Hteam; discriminate |].
  found_group Hg. each_sample_membership Hm Hid.
  split.
  - destruct (Hparent 10 (MembershipSel.mk ADMIN
                (Query.selectTeam GetByViewer.sampleDb
                   (Team.mk 10 true "Acme" (Some "acme") None Js.JNull))))
      as (r & Hr & _ & Hmax); [reflexivity | reflexivity |].
    rewrite Hr. destruct r; vm_compute in Hmax; congruence.
  - apply Hro. discriminate.
Defined.

(** ** getByViewer: the event types of a team group *)

Lemma notManaged_true (e : MappedEventType.t) :
  notManaged e = true <-> MappedEventType.schedulingType e <> Some MANAGED.
Proof.
  unfold notManaged. destruct (MappedEventType.schedulingType e) as [s |].
  - rewrite negb_true_iff. split.
    + intros H Heq. injection Heq as ->. discriminate.
    + intros H. destruct s; try reflexivity. now elim H.
  - split; [discriminate | reflexivity].
Qed.

Lemma ownedByNobodyOrViewer (uid : Z) (e : MappedEventType.t) :
  option_Z_eqb (MappedEventType.userId e) None
  || option_Z_eqb (MappedEventType.userId e) (Some uid) = true
  <-> MappedEventType.userId e = None \/ MappedEventType.userId e = Some uid.
Proof. now rewrite orb_true_iff, !option_Z_eqb_eq. Qed.

(** C5. For every team group: when the viewer's native role in the team is
    MEMBER, no event type of the group is MANAGED; when it is ADMIN or OWNER,
    every mapped event type of the team that passes the team filter check
    and the owner check is in the group, MANAGED or not; and in every case
    each event type of the group has [userId] null or equal to the viewer's
    id. *)
Theorem team_group_event_types (E : Collaborators) (db : Db.t) (uid : Z)
    (input : option Input.t) (out : Output.t) (g : EventTypeGroup.t) :
  getByViewerHandler E db uid input = Ok out ->
  In g (Output.eventTypeGroups out) ->
  EventTypeGroup.teamId g <> None ->
  exists m mapped,
    In m (Query.userTeams db uid)
    /\ EventTypeGroup.teamId g = Some (TeamSel.id (MembershipSel.team m))
    /\ mapR (mapEventType E) (TeamSel.eventTypes (MembershipSel.team m)) = Ok mapped
    /\ (MembershipSel.role m = MEMBER ->
        forall e, In e (EventTypeGroup.eventTypes g) ->
          MappedEventType.schedulingType e <> Some MANAGED)
    /\ (MembershipSel.role m <> MEMBER ->
        forall e, In e mapped ->
          filterTeamsEventTypesBasedOnInput E input e = true ->
          MappedEventType.userId e = None \/ MappedEventType.userId e = Some uid ->
          In e (EventTypeGroup.eventTypes g))
    /\ (forall e, In e (EventTypeGroup.eventTypes g) ->
          In e mapped
          /\ (MappedEventType.userId e = None \/ MappedEventType.userId e = Some uid)).
Proof.
  intros Hout Hg Hteam.
  destruct (team_group_origin E db uid input out g Hout Hg Hteam)
    as (m & md & Hm & _ & Hbuilt).
  apply teamGroup_Ok in Hbuilt as (mapped & Hmapped & Hid & _ & _ & _ & _ & Hevs).
  simpl in Hmapped, Hid, Hevs.
  exists m, mapped. split; [exact Hm |]. split; [exact Hid |]. split; [exact Hmapped |].
  rewrite Hevs. unfold teamGroupEventTypes. split; [| split].
  - intros Hrole e He. apply filter_In in He as [_ He].
    rewrite Hrole in He. simpl in He. now apply notManaged_true.
  - intros Hrole e He Hfilter Howner.
    apply filter_In. split.
    + apply filter_In. split; [| now apply ownedByNobodyOrViewer].
      apply filter_In. now split.
    + destruct (MembershipRole_eqb (MembershipSel.role m) MEMBER) eqn:Heq; [| reflexivity].
      apply MembershipRole_eqb_eq in Heq. contradiction.
  - intros e He. apply filter_In in He as [He _].
    apply filter_In in He as [He Howner].
    apply filter_In in He as [He _].
    split; [exact He | now apply ownedByNobodyOrViewer].
Qed.

(** C5 on the sample viewer, MEMBER of team 11: no event type of the group
    of team 11 is MANAGED, and each is owned by nobody or by the viewer. *)
Lemma team_group_event_types_witness :
  exists g,
    sampleGroup noInput 11 = Some g
    /\ forall e, In e (EventTypeGroup.eventTypes g) ->
         MappedEventType.schedulingType e <> Some MANAGED
         /\ (MappedEventType.userId e = None \/ MappedEventType.userId e = Some 1).
Proof.
  destruct (sampleGroup noInput 11) as [g |] eqn:Hg; [| found_group Hg].
  exists g. split; [reflexivity |].
  destruct (sampleGroup_Some _ _ _ Hg) as [Hin Hteam].
  destruct (team_group_event_types sampleCollaborators GetByViewer.sampleDb 1 noInput
              (sampleOutput noInput) g)
    as (m & mapped & Hm & Hid & _ & Hmember & _ & Howner);
    [evaluated | exact Hin | rewrite Hteam; discriminate |].
  found_group Hg. each_sample_membership Hm Hid.
  intros e He. split.
  - apply (Hmember eq_refl e He).
  - apply (Howner e He).
Defined.

(** ** getByViewer: the order of event types *)

Lemma Forall2_map_keys {A B : Type} (R : A -> B -> Prop) (f : A -> B) (l : list A) :
  (forall x, R x (f x)) -> Forall2 R l (map f l).
Proof.
  intros H. induction l as [| x l IH]; simpl; constructor; [apply H | exact IH].
Qed.

Lemma selected_rows_sorted (db : Db.t) (rows : list EventType.t) :
  StronglySorted rowOrder rows ->
  StronglySorted selOrder (map (Query.selectEventType db) rows).
Proof.
  apply sorted_same_keys, Forall2_map_keys. intros x. split; reflexivity.
Qed.

(** The store returns the event types of a team in order. *)
Lemma teamEventTypes_sorted (db : Db.t) (tid : Z) :
  StronglySorted selOrder (Query.teamEventTypes db tid).
Proof. apply selected_rows_sorted, orderBy_sorted. Qed.

(** The store returns the event types of the viewer in order. *)
Lemma userEventTypes_sorted (db : Db.t) (uid w : Z) :
  StronglySorted selOrder (Query.userEventTypes db uid w).
Proof. apply selected_rows_sorted, orderBy_sorted. Qed.

Lemma userTeams_team (db : Db.t) (uid : Z) (m : MembershipSel.t) :
  In m (Query.userTeams db uid) ->
  exists row t,
    In row (Db.memberships db)
    /\ Membership.userId row = uid
    /\ Membership.accepted row = true
    /\ Db.findTeam db (Membership.teamId row) = Some t
    /\ m = MembershipSel.mk (Membership.role row) (Query.selectTeam db t).
Proof.
  unfold Query.userTeams. intros H.
  apply in_flat_map in H as (row & Hrow & H).
  apply filter_In in Hrow as [Hrow Hcond].
  apply andb_true_iff in Hcond as [Huid Hacc]. apply Z.eqb_eq in Huid.
  destruct (Db.findTeam db (Membership.teamId row)) as [t |] eqn:Ht; simpl in H.
  - destruct H as [<- | []]. exists row, t. repeat split; assumption.
  - contradiction.
Qed.

Lemma mapEventType_keys (E : Collaborators) (e : EventTypeSel.t) (e' : MappedEventType.t) :
  mapEventType E e = Ok e' ->
  MappedEventType.position e' = EventTypeSel.position e
  /\ MappedEventType.id e' = EventTypeSel.id e
  /\ MappedEventType.schedulingType e' = EventTypeSel.schedulingType e
  /\ MappedEventType.userId e' = EventTypeSel.userId e.
Proof.
  unfold mapEventType. intros H. apply bindR_Ok in H as (md & _ & H).
  injection H as <-. repeat split.
Qed.

Lemma mapped_sorted (E : Collaborators) (l : list EventTypeSel.t)
    (l' : list MappedEventType.t) :
  mapR (mapEventType E) l = Ok l' ->
  StronglySorted selOrder l -> StronglySorted eventTypeOrder l'.
Proof.
  intros H. apply sorted_same_keys.
  apply mapR_Forall2 in H. eapply Forall2_impl; [| exact H].
  intros e e' He. apply mapEventType_keys in He as (Hp & Hi & _). now split.
Qed.

(** C8. In every group of the output, personal or team, the event types are
    ordered by descending position, ties broken by ascending id, the store
    returning each event-type list in that order; and the output is a
    function of the input data: two runs on the same data return the same
    groups in the same order. *)
Theorem event_types_ordered (E : Collaborators) (db : Db.t) (uid : Z)
    (input : option Input.t) (out : Output.t) (g : EventTypeGroup.t) :
  getByViewerHandler E db uid input = Ok out ->
  In g (Output.eventTypeGroups out) ->
  StronglySorted eventTypeOrder (EventTypeGroup.eventTypes g)
  /\ (forall out', getByViewerHandler E db uid input = Ok out' -> out' = out).
Proof.
  intros Hout Hg. split; [| intros out' Hout'; congruence].
  destruct (EventTypeGroup.teamId g) as [tid |] eqn:Hteam.
  - destruct (team_group_origin E db uid input out g Hout Hg) as (m & md & Hm & _ & Hbuilt).
    { rewrite Hteam. discriminate. }
    apply teamGroup_Ok in Hbuilt as (mapped & Hmapped & _ & _ & _ & _ & _ & Hevs).
    simpl in Hmapped. rewrite Hevs. unfold teamGroupEventTypes.
    do 3 apply filter_sorted.
    apply (mapped_sorted E _ _ Hmapped).
    apply userTeams_team in Hm as (row & t & _ & _ & _ & _ & ->). simpl.
    apply teamEventTypes_sorted.
  - apply getByViewerHandler_Ok in Hout
      as (user & ms & uets & tgs & _ & _ & _ & Htgs & Hgroups).
    rewrite Hgroups in Hg. apply in_app_or in Hg as [Hg | Hg].
    + destruct (personalGroupIncluded E input uid); simpl in Hg; [| contradiction].
      destruct Hg as [<- | []]. simpl. apply orderBy_sorted.
    + destruct (mapR_In_image _ _ _ _ Htgs Hg) as (m & _ & Hbuilt).
      apply teamGroup_Ok in Hbuilt as (_ & _ & Hid & _). congruence.
Qed.

(** C8 on the sample viewer: the event types of every group of an unfiltered
    request are in order, the group of team 11 listing 113 before 111. *)
Lemma event_types_ordered_witness :
  Forall (fun g => StronglySorted eventTypeOrder (EventTypeGroup.eventTypes g))
    (Output.eventTypeGroups (sampleOutput noInput))
  /\ (exists g, sampleGroup noInput 11 = Some g
                /\ map MappedEventType.id (EventTypeGroup.eventTypes g) = [113; 111]).
Proof.
  split.
  - apply Forall_forall. intros g Hg.
    apply (event_types_ordered sampleCollaborators GetByViewer.sampleDb 1 noInput
             (sampleOutput noInput) g); [vm_compute; reflexivity | exact Hg].
  - eexists. split; vm_compute; reflexivity.
Defined.

(** ** getByViewer: the personal group *)

Lemma personalGroupIncluded_iff (E : Collaborators) (input : option Input.t) (uid : Z) :
  personalGroupIncluded E input uid = true
  <-> input_filters input = None
      \/ exists f, input_filters input = Some f
                   /\ (hasFilter E f = false
                       \/ exists l, Filters.userIds f = Some l /\ In uid l).
Proof.
  unfold personalGroupIncluded, noActiveFilter.
  destruct (input_filters input) as [f |].
  - rewrite orb_true_iff, negb_true_iff. split.
    + intros [H | H]; right; exists f; split; try reflexivity; [now left |].
      destruct (Filters.userIds f) as [l |]; [| discriminate].
      right. exists l. split; [reflexivity | now apply includes_In].
    + intros [H | (f' & Hf & [H | (l & Hl & H)])]; [discriminate | |];
        injection Hf as <-; [now left |].
      right. rewrite Hl. now apply includes_In.
  - split; [now left | reflexivity].
Qed.

(** The part of C3 that holds on every request: the personal group is in the
    output exactly when no filter set is active or [filters.userIds] contains
    the viewer's id; it is then the first group, and its event types are the
    unmanaged ones among the mapped event types that the query returned for
    the owner id computed by [getPrismaWhereUserIdFromFilter]. *)
Lemma personal_group_shape (E : Collaborators) (db : Db.t) (uid : Z)
    (input : option Input.t) (out : Output.t) :
  getByViewerHandler E db uid input = Ok out ->
  (personalGroupIncluded E input uid = true ->
   exists g rest userEventTypes,
     Output.eventTypeGroups out = g :: rest
     /\ EventTypeGroup.teamId g = None
     /\ (forall g', In g' rest -> EventTypeGroup.teamId g' <> None)
     /\ mapR (mapEventType E)
          (Query.userEventTypes db uid
             (getPrismaWhereUserIdFromFilter E uid (input_filters input)))
        = Ok userEventTypes
     /\ EventTypeGroup.eventTypes g = filter notManaged userEventTypes)
  /\ (personalGroupIncluded E input uid = false ->
      forall g, In g (Output.eventTypeGroups out) -> EventTypeGroup.teamId g <> None).
Proof.
  intros Hout.
  apply getByViewerHandler_Ok in Hout
    as (user & ms & uets & tgs & Huser & _ & Huets & Htgs & Hgroups).
  apply user_findUnique_Some in Huser as (_ & _ & Hevs). rewrite Hevs in Huets.
  assert (Hteam : forall g, In g tgs -> EventTypeGroup.teamId g <> None).
  { intros g Hg. destruct (mapR_In_image _ _ _ _ Htgs Hg) as (m & _ & Hbuilt).
    apply teamGroup_Ok in Hbuilt as (_ & _ & Hid & _). rewrite Hid. discriminate. }
  rewrite Hgroups. split; intros Hincl; rewrite Hincl; simpl.
  - eexists _, tgs, uets. repeat split; try assumption.
    simpl. apply orderBy_sorted_id, filter_sorted.
    apply (mapped_sorted E _ _ Huets), userEventTypes_sorted.
  - exact Hteam.
Qed.

Lemma Forall2_map_left {A B C : Type} (R : B -> C -> Prop) (f : A -> B)
    (l : list A) (l' : list C) :
  Forall2 R (map f l) l' -> Forall2 (fun x y => R (f x) y) l l'.
Proof.
  revert l'. induction l as [| x l IH]; simpl; intros l' H; inversion H; subst;
    constructor; auto.
Qed.

Lemma Forall2_filter {A B : Type} (R : A -> B -> Prop) (p : A -> bool) (q : B -> bool)
    (l : list A) (l' : list B) :
  (forall x y, R x y -> p x = q y) ->
  Forall2 R l l' -> Forall2 R (filter p l) (filter q l').
Proof.
  intros Hpq. induction 1 as [| x y l l' Hxy _ IH]; simpl; [constructor |].
  rewrite (Hpq x y Hxy). destruct (q y); [constructor |]; assumption.
Qed.

Lemma getPrismaWhereUserIdFromFilter_viewer (E : Collaborators) (uid : Z)
    (filters : option Filters.t) :
  noActiveFilter E filters = true
  \/ (exists f l, filters = Some f /\ Filters.userIds f = Some (uid :: l)) ->
  getPrismaWhereUserIdFromFilter E uid filters = uid.
Proof.
  unfold getPrismaWhereUserIdFromFilter, noActiveFilter.
  intros [H | (f & l & -> & Hl)].
  - destruct filters as [f |]; [now rewrite H | reflexivity].
  - rewrite Hl, Z.eqb_refl. now destruct (negb (hasFilter E f)).
Qed.

(** The rest of C3 where it holds: when the query is made for the viewer's
    own id, which is the case when no filter set is active or the viewer's id
    is the first of [filters.userIds], the personal group lists exactly the
    viewer's unmanaged personal event types, ordered by position desc, id
    asc. *)
Lemma personal_group_lists_unmanaged_rows (E : Collaborators) (db : Db.t) (uid : Z)
    (input : option Input.t) (out : Output.t) :
  getByViewerHandler E db uid input = Ok out ->
  personalGroupIncluded E input uid = true ->
  getPrismaWhereUserIdFromFilter E uid (input_filters input) = uid ->
  exists g rest,
    Output.eventTypeGroups out = g :: rest
    /\ EventTypeGroup.teamId g = None
    /\ Forall2 showsRow
         (orderBy EventType.position EventType.id (personalUnmanagedRows db uid))
         (EventTypeGroup.eventTypes g).
Proof.
  intros Hout Hincl Hwhere.
  destruct (personal_group_shape E db uid input out Hout) as [Hshape _].
  destruct (Hshape Hincl) as (g & rest & uets & Hgroups & Hteam & _ & Hmapped & Hevs).
  exists g, rest. split; [exact Hgroups |]. split; [exact Hteam |].
  rewrite Hevs, Hwhere in *. unfold personalUnmanagedRows.
  rewrite <- filter_orderBy.
  apply mapR_Forall2 in Hmapped. unfold Query.userEventTypes in Hmapped.
  apply Forall2_map_left in Hmapped.
  apply Forall2_filter with (R := showsRow).
  - intros row e (_ & _ & Hs & _). unfold notManaged. now rewrite Hs.
  - eapply Forall2_impl; [| exact Hmapped].
    intros row e He. apply mapEventType_keys in He as (Hp & Hi & Hs & Hu).
    repeat split; assumption.
Qed.

(** C3 fails on the sample viewer, whose id is 1, when [filters.userIds] is
    [2, 1]: the personal group is included and comes first, but the query
    was made for the owner id 0, so the group lists no event type, although
    the viewer's unmanaged personal event types are 101 and 100. *)
Theorem personal_group_empty_when_viewer_listed_second :
  getByViewerHandler sampleCollaborators GetByViewer.sampleDb 1
    (inputWithFilters None (Some [2; 1]))
  = Ok (sampleOutput (inputWithFilters None (Some [2; 1])))
  /\ personalGroupIncluded sampleCollaborators (inputWithFilters None (Some [2; 1])) 1 = true
  /\ getPrismaWhereUserIdFromFilter sampleCollaborators 1
       (Some (Filters.mk None (Some [2; 1]))) = 0
  /\ (exists g rest,
        Output.eventTypeGroups (sampleOutput (inputWithFilters None (Some [2; 1]))) = g :: rest
        /\ EventTypeGroup.teamId g = None
        /\ EventTypeGroup.eventTypes g = [])
  /\ map EventType.id
       (orderBy EventType.position EventType.id
          (personalUnmanagedRows GetByViewer.sampleDb 1)) = [101; 100].
Proof.
  split; [vm_compute; reflexivity |].
  split; [reflexivity |].
  split; [reflexivity |].
  split; [| vm_compute; reflexivity].
  eexists _, _. split; [vm_compute; reflexivity |]. split; reflexivity.
Qed.

(** ** adminVerify *)

Import AdminVerify.

Lemma find_none_iff {A : Type} (p : A -> bool) (l : list A) :
  find p l = None <-> forall x, In x l -> p x = false.
Proof.
  split; [apply find_none |].
  induction l as [| x l IH]; simpl; intros H; [reflexivity |].
  rewrite (H x (or_introl eq_refl)). apply IH. intros y Hy. apply H. now right.
Qed.

Lemma filter_nil_iff {A : Type} (p : A -> bool) (l : list A) :
  (forall x, In x l -> p x = false) -> filter p l = [].
Proof.
  induction l as [| x l IH]; simpl; intros H; [reflexivity |].
  rewrite (H x (or_introl eq_refl)). apply IH. intros y Hy. apply H. now right.
Qed.

Lemma team_findFirst_None (orgId : Z) (db : Db.t) :
  team_findFirst orgId db = None
  <-> forall t, In t (Db.teams db) -> ~ (Team.id t = orgId /\ Team.isOrganization t = true).
Proof.
  unfold team_findFirst. split.
  - destruct (find _ (Db.teams db)) as [t |] eqn:Hfind; [discriminate |].
    intros _ t Ht [Hid Horg].
    apply (find_none _ _ Hfind) in Ht. apply andb_false_iff in Ht.
    apply Z.eqb_eq in Hid. destruct Ht; congruence.
  - intros H.
    assert (Hnone : find (fun t => (Team.id t =? orgId) && Team.isOrganization t)
                      (Db.teams db) = None).
    { apply find_none_iff. intros t Ht.
      destruct ((Team.id t =? orgId) && Team.isOrganization t) eqn:Hp; [| reflexivity].
      apply andb_true_iff in Hp as [Hid Horg]. apply Z.eqb_eq in Hid.
      elim (H t Ht). now split. }
    now rewrite Hnone.
Qed.

(** The store's call of [findFirst] on a store whose team ids all fit the
    key column: the range check, then the selection. *)
Lemma team_findFirst_call_checks_range (orgId : Z) (db : Db.t) :
  (forall t, In t (Db.teams db) -> int4 (Team.id t) = true) ->
  team_findFirst_call orgId db
  = if int4 orgId then (Ok (team_findFirst orgId db), db) else (Err ValueOutOfRange, db).
Proof.
  intros Hfit. unfold team_findFirst_call.
  destruct (team_findFirst orgId db) as [org |] eqn:Hfound; [| now destruct (int4 orgId)].
  unfold team_findFirst in Hfound.
  destruct (find _ (Db.teams db)) as [t |] eqn:Hfind; [| discriminate].
  apply find_some in Hfind as [Ht Hp]. apply andb_true_iff in Hp as [Hid _].
  apply Z.eqb_eq in Hid. now rewrite <- Hid, (Hfit t Ht).
Qed.

(** The call on a store with faults, case by case. *)
Lemma adminVerifyHandlerWith_cases (F : Faults) (orgId : Z) (db : Db.t) :
  adminVerifyHandlerWith F orgId db
  = match team_findFirst_fault F with
    | Some e => (Err e, db)
    | None =>
        match team_findFirst orgId db with
        | None =>
            (Err (if int4 orgId
                  then TRPCError FORBIDDEN "This team isnt a org or doesnt exist"
                  else ValueOutOfRange),
             db)
        | Some org =>
            match members org with
            | [] => (Err TypeError, db)
            | first :: _ =>
                match organizationSettings_update_fault F with
                | Some e => (Err e, db)
                | None =>
                    match updateFirst
                            (fun s => OrganizationSettings.organizationId s =? orgId)
                            (OrganizationSettings.set_isOrganizationVerified true)
                            (Db.organizationSettings db) with
                    | None => (Err RecordNotFound, db)
                    | Some rows =>
                        match user_findMany_fault F with
                        | Some e => (Err e, Db.set_organizationSettings rows db)
                        | None =>
                            match batchFault F with
                            | Some e => (Err e, Db.set_organizationSettings rows db)
                            | None =>
                                (Ok (Build_Reply true
                                       ("Verified Organization - Auto accepted all members ending in "
                                        ++ Js.template_undefined
                                             (nth_error
                                                (Js.split "@" (User.email (user first))) 1))%string),
                                 verifiedDb orgId
                                   (nth_error (Js.split "@" (User.email (user first))) 1)
                                   rows db)
                            end
                        end
                    end
                end
            end
        end
    end.
Proof.
  unfold adminVerifyHandlerWith, bind, attempt, team_findFirst_call, batchFault.
  destruct (team_findFirst_fault F) as [e |]; [reflexivity |].
  destruct (team_findFirst orgId db) as [org |]; [| now destruct (int4 orgId)].
  destruct (members org) as [| first rest]; [reflexivity |].
  destruct (organizationSettings_update_fault F) as [e |]; [reflexivity |].
  unfold organizationSettings_update.
  destruct (updateFirst _ _ (Db.organizationSettings db)) as [rows |]; [| reflexivity].
  destruct (user_findMany_fault F) as [e |]; [reflexivity |].
  unfold transaction, sequence, bind, attempt.
  destruct (membership_updateMany_fault F) as [e |]; [reflexivity |].
  destruct (user_updateMany_fault F) as [e |]; reflexivity.
Qed.

(** The call on a store that carries out every call, case by case. *)
Lemma adminVerifyHandler_cases (orgId : Z) (db : Db.t) :
  adminVerifyHandler orgId db
  = match team_findFirst orgId db with
    | None =>
        (Err (if int4 orgId
              then TRPCError FORBIDDEN "This team isnt a org or doesnt exist"
              else ValueOutOfRange),
         db)
    | Some org =>
        match members org with
        | [] => (Err TypeError, db)
        | first :: _ =>
            match updateFirst
                    (fun s => OrganizationSettings.organizationId s =? orgId)
                    (OrganizationSettings.set_isOrganizationVerified true)
                    (Db.organizationSettings db) with
            | None => (Err RecordNotFound, db)
            | Some rows =>
                (Ok (Build_Reply true
                       ("Verified Organization - Auto accepted all members ending in "
                        ++ Js.template_undefined
                             (nth_error (Js.split "@" (User.email (user first))) 1))%string),
                 verifiedDb orgId
                   (nth_error (Js.split "@" (User.email (user first))) 1) rows db)
            end
        end
    end.
Proof.
  unfold adminVerifyHandler. rewrite adminVerifyHandlerWith_cases. reflexivity.
Qed.

(** C7. If no team with the given [orgId] is flagged [isOrganization] and
    the [orgId] fits the 32-bit key of a team, the handler throws the
    FORBIDDEN error and the store is as it was before the call: nothing has
    been written. For an [orgId] that does not fit the key the store rejects
    the lookup, the error is the store's out-of-range error instead, and the
    store is as it was as well. *)
Theorem adminVerify_forbidden_writes_nothing (orgId : Z) (db : Db.t) :
  (forall t, In t (Db.teams db) ->
     ~ (Team.id t = orgId /\ Team.isOrganization t = true)) ->
  (int4 orgId = true ->
   adminVerifyHandler orgId db
   = (Err (TRPCError FORBIDDEN "This team isnt a org or doesnt exist"), db))
  /\ (int4 orgId = false ->
      adminVerifyHandler orgId db = (Err ValueOutOfRange, db)).
Proof.
  intros H. apply team_findFirst_None in H.
  rewrite adminVerifyHandler_cases, H.
  split; intros Hrange; now rewrite Hrange.
Qed.

(** C7 on the sample store: team 11 exists but is not an organization, no
    team has the id 99 or the largest or the smallest id of the key, and the
    numbers next to these two are rejected by the store. *)
Lemma adminVerify_forbidden_writes_nothing_witness :
  adminVerifyHandler 11 AdminVerify.sampleDb
  = (Err (TRPCError FORBIDDEN "This team isnt a org or doesnt exist"), AdminVerify.sampleDb)
  /\ adminVerifyHandler 99 AdminVerify.sampleDb
     = (Err (TRPCError FORBIDDEN "This team isnt a org or doesnt exist"), AdminVerify.sampleDb)
  /\ adminVerifyHandler 2147483647 AdminVerify.sampleDb
     = (Err (TRPCError FORBIDDEN "This team isnt a org or doesnt exist"), AdminVerify.sampleDb)
  /\ adminVerifyHandler 2147483648 AdminVerify.sampleDb
     = (Err ValueOutOfRange, AdminVerify.sampleDb)
  /\ adminVerifyHandler (-2147483648) AdminVerify.sampleDb
     = (Err (TRPCError FORBIDDEN "This team isnt a org or doesnt exist"), AdminVerify.sampleDb)
  /\ adminVerifyHandler (-2147483649) AdminVerify.sampleDb
     = (Err ValueOutOfRange, AdminVerify.sampleDb).
Proof.
  assert (Hnone : forall orgId, orgId <> 10 ->
            forall t, In t (Db.teams AdminVerify.sampleDb) ->
              ~ (Team.id t = orgId /\ Team.isOrganization t = true)).
  { intros orgId Hne t Ht [Hid Horg].
    simpl in Ht. decompose [or] Ht; subst; simpl in *; try discriminate; contradiction. }
  split; [| split; [| split; [| split; [| split]]]].
  - apply (proj1 (adminVerify_forbidden_writes_nothing 11 AdminVerify.sampleDb
                    (Hnone 11 ltac:(discriminate)))). reflexivity.
  - apply (proj1 (adminVerify_forbidden_writes_nothing 99 AdminVerify.sampleDb
                    (Hnone 99 ltac:(discriminate)))). reflexivity.
  - apply (proj1 (adminVerify_forbidden_writes_nothing 2147483647 AdminVerify.sampleDb
                    (Hnone 2147483647 ltac:(discriminate)))). reflexivity.
  - apply (proj2 (adminVerify_forbidden_writes_nothing 2147483648 AdminVerify.sampleDb
                    (Hnone 2147483648 ltac:(discriminate)))). reflexivity.
  - apply (proj1 (adminVerify_forbidden_writes_nothing (-2147483648) AdminVerify.sampleDb
                    (Hnone (-2147483648) ltac:(discriminate)))). reflexivity.
  - apply (proj2 (adminVerify_forbidden_writes_nothing (-2147483649) AdminVerify.sampleDb
                    (Hnone (-2147483649) ltac:(discriminate)))). reflexivity.
Defined.

(** C7 as the spec words it fails on the sample store at the number after
    the largest id of the key: no team has that id, and the error of the call
    is the store's out-of-range error, not a FORBIDDEN one. *)
Lemma forbidden_claim_fails : ~ forbidden_claim 2147483648 AdminVerify.sampleDb.
Proof.
  intros Hclaim. destruct Hclaim as [message Hrun].
  - intros t Ht [Hid Horg].
    simpl in Ht. decompose [or] Ht; subst; simpl in *; try discriminate; contradiction.
  - rewrite adminVerifyHandler_cases in Hrun. vm_compute in Hrun. discriminate.
Qed.

(** C10. When the team with the given [orgId] is an organization but no
    membership of it has the role OWNER, [foundOrg.members] is empty and the
    unguarded [members[0].user] throws a TypeError: the handler returns no
    result, and the error is not the FORBIDDEN one. Nothing has been written
    at that point. *)
Theorem adminVerify_without_owner_throws (orgId : Z) (db : Db.t) :
  (exists t, In t (Db.teams db) /\ Team.id t = orgId /\ Team.isOrganization t = true) ->
  (forall m, In m (Db.memberships db) ->
     Membership.teamId m = orgId -> Membership.role m <> OWNER) ->
  adminVerifyHandler orgId db = (Err TypeError, db).
Proof.
  intros (t & Ht & Hid & Horg) Hnoowner.
  rewrite adminVerifyHandler_cases. unfold team_findFirst.
  destruct (find (fun t0 => (Team.id t0 =? orgId) && Team.isOrganization t0) (Db.teams db))
    as [t' |] eqn:Hfind.
  - apply find_some in Hfind as [_ Hp]. apply andb_true_iff in Hp as [Hid' _].
    apply Z.eqb_eq in Hid'. cbn [members]. unfold ownerMembers.
    rewrite filter_nil_iff; [reflexivity |].
    intros m Hm. apply andb_false_iff.
    destruct (Z.eqb_spec (Membership.teamId m) (Team.id t')) as [Heq | _]; [| now left].
    right. destruct (MembershipRole_eqb (Membership.role m) OWNER) eqn:Hrole; [| reflexivity].
    apply MembershipRole_eqb_eq in Hrole. elim (Hnoowner m Hm); congruence.
  - apply (find_none _ _ Hfind) in Ht. rewrite Horg, <- Hid, Z.eqb_refl in Ht. discriminate.
Qed.

(** C10 on the sample organization once its owner has been demoted. *)
Lemma adminVerify_without_owner_throws_witness :
  adminVerifyHandler 10 ownerlessDb = (Err TypeError, ownerlessDb).
Proof.
  apply adminVerify_without_owner_throws.
  - eexists. split; [left; reflexivity | split; reflexivity].
  - intros m Hm Hteam. simpl in Hm. decompose [or] Hm; subst; simpl in *;
      try discriminate; contradiction.
Defined.

(** A transaction either takes effect as a whole or leaves the store as it
    was. *)
Lemma transaction_all_or_nothing (ops : list (M unit)) (db : Db.t) :
  (exists db', transaction ops db = (Ok tt, db') /\ sequence ops db = (Ok tt, db'))
  \/ (exists e, transaction ops db = (Err e, db)).
Proof.
  unfold transaction. destruct (sequence ops db) as [[[] | e] db'].
  - left. now exists db'.
  - right. now exists e.
Qed.

Lemma updateFirst_Some {A : Type} (p : A -> bool) (f : A -> A) (l : list A) :
  (exists x, In x l /\ p x = true) ->
  exists pre x post,
    l = pre ++ x :: post
    /\ p x = true
    /\ (forall y, In y pre -> p y = false)
    /\ updateFirst p f l = Some (pre ++ f x :: post).
Proof.
  induction l as [| y l IH]; intros (x & Hx & Hp); [contradiction |].
  simpl. destruct (p y) eqn:Hy.
  - exists [], y, l. repeat split; try assumption. intros z [].
  - destruct IH as (pre & x' & post & -> & Hp' & Hpre & Hupd).
    { destruct Hx as [-> | Hx]; [congruence | now exists x]. }
    exists (y :: pre), x', post. rewrite Hupd. repeat split; try assumption.
    intros z [<- | Hz]; [assumption | now apply Hpre].
Qed.

Lemma hasMembershipIn_true (db : Db.t) (orgId userId : Z) :
  hasMembershipIn db orgId userId = true
  <-> exists m, In m (Db.memberships db)
                /\ Membership.userId m = userId
                /\ Membership.teamId m = orgId.
Proof.
  unfold hasMembershipIn. rewrite existsb_exists.
  split; intros (m & Hm & H); exists m; (split; [exact Hm |]).
  - apply andb_true_iff in H as [Hu Ht]. now rewrite Z.eqb_eq in Hu, Ht.
  - destruct H as [-> ->]. now rewrite !Z.eqb_refl.
Qed.

(** *** The pattern match of the email filter *)

Lemma like_percent (p s : string) :
  Sql.like (String "%" p) s
  = Sql.like p s
    || match s with
       | EmptyString => false
       | String _ s' => Sql.like (String "%" p) s'
       end.
Proof. destruct s; reflexivity. Qed.

Lemma like_char (c : ascii) (p s : string) :
  Ascii.eqb c "%" = false ->
  Sql.like (String c p) s
  = match s with
    | EmptyString => false
    | String d s' => (Ascii.eqb c "_" || Ascii.eqb c d) && Sql.like p s'
    end.
Proof. intros H. simpl. rewrite H. reflexivity. Qed.

(** A text matches itself as a pattern, whatever its characters. *)
Lemma like_self (d : string) : Sql.like d d = true.
Proof.
  induction d as [| c d IH]; [reflexivity |].
  destruct (Ascii.eqb c "%") eqn:Hc.
  - apply Ascii.eqb_eq in Hc. subst c.
    rewrite like_percent, (like_percent d d), IH. simpl. apply orb_true_r.
  - rewrite (like_char _ _ _ Hc), Ascii.eqb_refl, IH. now rewrite orb_true_r.
Qed.

Lemma like_percent_iff (p s : string) :
  Sql.like (String "%" p) s = true
  <-> exists prefix rest, s = (prefix ++ rest)%string /\ Sql.like p rest = true.
Proof.
  induction s as [| a s IH]; rewrite like_percent.
  - rewrite orb_false_r. split.
    + intros H. now exists ""%string, ""%string.
    + intros (prefix & rest & Heq & H). destruct prefix; [| discriminate].
      simpl in Heq. now subst.
  - rewrite orb_true_iff, IH. split.
    + intros [H | (prefix & rest & -> & H)].
      * now exists ""%string, (String a s).
      * now exists (String a prefix), rest.
    + intros (prefix & rest & Heq & H). destruct prefix as [| b prefix].
      * simpl in Heq. subst. now left.
      * injection Heq as -> ->. right. now exists prefix, rest.
Qed.

(** A pattern without wildcard matches only itself. *)
Lemma like_literal (d s : string) : literalDomain d -> Sql.like d s = true -> s = d.
Proof.
  revert s. induction d as [| c d IH]; intros s Hliteral H.
  - destruct s; [reflexivity | discriminate].
  - destruct (Hliteral c (or_introl eq_refl)) as (Hpercent & Hunderscore & _).
    apply Ascii.eqb_neq in Hpercent, Hunderscore.
    rewrite (like_char _ _ _ Hpercent) in H. destruct s as [| b s]; [discriminate |].
    rewrite Hunderscore in H. simpl in H. apply andb_true_iff in H as [Hcb H].
    apply Ascii.eqb_eq in Hcb. subst b. f_equal. apply IH; [| exact H].
    intros c' Hc'. apply Hliteral. now right.
Qed.

(** Every email that ends with the domain passes the filter. *)
Lemma emailEndsWith_suffix (domain email : string) :
  endsWith_spec email domain -> emailEndsWith (Some domain) email = true.
Proof.
  intros [prefix ->]. apply like_percent_iff. exists prefix, domain.
  split; [reflexivity | apply like_self].
Qed.

(** For a domain without wildcard, only those pass it. *)
Lemma emailEndsWith_literal (domain email : string) :
  literalDomain domain ->
  emailEndsWith (Some domain) email = true -> endsWith_spec email domain.
Proof.
  intros Hliteral H. apply like_percent_iff in H as (prefix & rest & -> & H).
  apply (like_literal _ _ Hliteral) in H. subst rest. now exists prefix.
Qed.

(** The members of the organization whose email ends with the domain are
    among the ids collected from [foundUsersWithMatchingEmailDomain]. *)
Lemma userIds_of_domainMember (db : Db.t) (orgId : Z) (domain : string) (userId : Z) :
  domainMember db orgId domain userId ->
  Js.includes (map User.id (user_findMany (Some domain) orgId db)) userId = true.
Proof.
  intros (u & Hu & Hid & Hemail & Hmember).
  apply includes_In, in_map_iff. exists u. split; [exact Hid |].
  apply filter_In. split; [exact Hu |].
  apply andb_true_iff. split; [now apply emailEndsWith_suffix |].
  rewrite Hid. now apply hasMembershipIn_true.
Qed.

(** For a domain without wildcard, the collected ids are theirs only. *)
Lemma userIds_domainMember (db : Db.t) (orgId : Z) (domain : string) (userId : Z) :
  literalDomain domain ->
  Js.includes (map User.id (user_findMany (Some domain) orgId db)) userId = true
  <-> domainMember db orgId domain userId.
Proof.
  intros Hliteral. split; [| apply userIds_of_domainMember].
  rewrite includes_In, in_map_iff. unfold user_findMany, domainMember.
  intros (u & Hid & Hu). apply filter_In in Hu as [Hu Hcond].
  apply andb_true_iff in Hcond as [Hemail Hmember].
  exists u. rewrite Hid in Hmember. repeat split; try assumption.
  - now apply emailEndsWith_literal.
  - now apply hasMembershipIn_true.
Qed.

Lemma teamHasParent_true (db : Db.t) (orgId : Z) (m : Membership.t) :
  teamHasParent db orgId m = true
  <-> exists t, Db.findTeam db (Membership.teamId m) = Some t
                /\ Team.parentId t = Some orgId.
Proof.
  unfold teamHasParent. destruct (Db.findTeam db (Membership.teamId m)) as [t |].
  - rewrite option_Z_eqb_eq. split.
    + intros H. now exists t.
    + intros (t' & Heq & H). now injection Heq as <-.
  - split; [discriminate | intros (t & Heq & _); discriminate].
Qed.

Lemma membershipTargeted_true (db : Db.t) (orgId : Z) (domain : string) (m : Membership.t) :
  literalDomain domain ->
  membershipTargeted db (map User.id (user_findMany (Some domain) orgId db)) orgId m = true
  <-> domainMember db orgId domain (Membership.userId m) /\ inOrgOrSubTeam db orgId m.
Proof.
  intros Hliteral. unfold membershipTargeted, inOrgOrSubTeam.
  rewrite andb_true_iff, orb_true_iff, (userIds_domainMember _ _ _ _ Hliteral),
    teamHasParent_true, Z.eqb_eq.
  tauto.
Qed.

Lemma Forall2_In_left {A B : Type} (R : A -> B -> Prop) (l : list A) (l' : list B) (x : A) :
  Forall2 R l l' -> In x l -> exists y, In y l' /\ R x y.
Proof.
  induction 1 as [| a b l l' Hab _ IH]; simpl; intros Hin; [contradiction |].
  destruct Hin as [-> | Hin].
  - exists b. split; [now left | assumption].
  - destruct (IH Hin) as (y & Hy & HR). exists y. split; [now right | assumption].
Qed.

(** C6. Let the handler find the organization, let the email of its first
    OWNER member have a part after "@", the domain, made of characters that
    the store's pattern match reads literally, let the organization have a
    settings row, and let the store carry out the lookup, the settings update
    and the search for the members. Then the settings row of the organization
    is marked verified, and the two batch writes take effect together or not
    at all. When the store carries the batch out, the call returns the
    confirmation message naming the domain; the memberships, in the
    organization or in one of its sub-teams, of every member of the
    organization whose email ends with the domain are accepted, and no other
    membership is changed; those users have the organization as their
    [organizationId], and no other user is changed; in particular a user
    whose email does not end with the domain is untouched, with all of that
    user's memberships. When the store rejects one of the two writes, the
    call throws that error and the memberships and the users are as they were
    before the call. *)
Theorem adminVerify_accepts_domain_members (F : Faults) (orgId : Z) (db : Db.t)
    (org : FoundOrg) (first : Member) (rest : list Member) (domain : string) :
  team_findFirst orgId db = Some org ->
  members org = first :: rest ->
  nth_error (Js.split "@" (User.email (user first))) 1 = Some domain ->
  literalDomain domain ->
  (exists s, In s (Db.organizationSettings db)
             /\ OrganizationSettings.organizationId s = orgId) ->
  team_findFirst_fault F = None ->
  organizationSettings_update_fault F = None ->
  user_findMany_fault F = None ->
  exists r db',
    adminVerifyHandlerWith F orgId db = (r, db')
    /\ (exists pre s post,
          Db.organizationSettings db = pre ++ s :: post
          /\ OrganizationSettings.organizationId s = orgId
          /\ (forall y, In y pre -> OrganizationSettings.organizationId y <> orgId)
          /\ Db.organizationSettings db'
             = pre ++ OrganizationSettings.set_isOrganizationVerified true s :: post)
    /\ Db.teams db' = Db.teams db
    /\ Db.eventTypes db' = Db.eventTypes db
    /\ match batchFault F with
       | Some e =>
           r = Err e
           /\ Db.memberships db' = Db.memberships db
           /\ Db.users db' = Db.users db
       | None =>
           r = Ok (Build_Reply true
                     ("Verified Organization - Auto accepted all members ending in "
                      ++ domain)%string)
           /\ Forall2
                (fun m m' =>
                   (domainMember db orgId domain (Membership.userId m)
                    /\ inOrgOrSubTeam db orgId m -> m' = Membership.set_accepted true m)
                   /\ (~ (domainMember db orgId domain (Membership.userId m)
                          /\ inOrgOrSubTeam db orgId m) -> m' = m))
                (Db.memberships db) (Db.memberships db')
           /\ Forall2
                (fun u u' =>
                   (domainMember db orgId domain (User.id u) ->
                    u' = User.set_organizationId (Some orgId) u)
                   /\ (~ domainMember db orgId domain (User.id u) -> u' = u))
                (Db.users db) (Db.users db')
           /\ (forall u,
                 In u (Db.users db) ->
                 (forall u0, In u0 (Db.users db) -> User.id u0 = User.id u ->
                    ~ endsWith_spec (User.email u0) domain) ->
                 In u (Db.users db')
                 /\ forall m, In m (Db.memberships db) ->
                      Membership.userId m = User.id u -> In m (Db.memberships db'))
       end.
Proof.
  intros Hfound Howner Hdomain Hliteral Hsettings Hlookup Hupdate Hsearch.
  destruct (updateFirst_Some
              (fun s => OrganizationSettings.organizationId s =? orgId)
              (OrganizationSettings.set_isOrganizationVerified true)
              (Db.organizationSettings db)) as (pre & s & post & Hsplit & Hs & Hpre & Hupd).
  { destruct Hsettings as (s & Hs & Hid). exists s. split; [exact Hs |].
    now apply Z.eqb_eq. }
  assert (Hrows :
    exists pre0 s0 post0,
      Db.organizationSettings db = pre0 ++ s0 :: post0
      /\ OrganizationSettings.organizationId s0 = orgId
      /\ (forall y, In y pre0 -> OrganizationSettings.organizationId y <> orgId)
      /\ pre ++ OrganizationSettings.set_isOrganizationVerified true s :: post
         = pre0 ++ OrganizationSettings.set_isOrganizationVerified true s0 :: post0).
  { exists pre, s, post. repeat split; try assumption.
    - now apply Z.eqb_eq.
    - intros y Hy Heq. apply Hpre in Hy. apply Z.eqb_neq in Hy. contradiction. }
  set (userIds := map User.id (user_findMany (Some domain) orgId db)).
  assert (Hmemberships :
    Forall2
      (fun m m' =>
         (domainMember db orgId domain (Membership.userId m)
          /\ inOrgOrSubTeam db orgId m -> m' = Membership.set_accepted true m)
         /\ (~ (domainMember db orgId domain (Membership.userId m)
                /\ inOrgOrSubTeam db orgId m) -> m' = m))
      (Db.memberships db)
      (map (acceptMembership db userIds orgId) (Db.memberships db))).
  { apply Forall2_map_keys. intros m. unfold acceptMembership.
    destruct (membershipTargeted db userIds orgId m) eqn:Ht.
    - split; [reflexivity |]. intros Hnot. elim Hnot.
      apply (membershipTargeted_true db orgId domain m Hliteral) in Ht. exact Ht.
    - split; [| reflexivity]. intros Hyes.
      apply (membershipTargeted_true db orgId domain m Hliteral) in Hyes.
      unfold userIds in Ht. congruence. }
  assert (Husers :
    Forall2
      (fun u u' =>
         (domainMember db orgId domain (User.id u) ->
          u' = User.set_organizationId (Some orgId) u)
         /\ (~ domainMember db orgId domain (User.id u) -> u' = u))
      (Db.users db)
      (map (affiliateUser userIds orgId) (Db.users db))).
  { apply Forall2_map_keys. intros u. unfold affiliateUser.
    destruct (Js.includes userIds (User.id u)) eqn:Hi.
    - split; [reflexivity |]. intros Hnot. elim Hnot.
      apply (userIds_domainMember db orgId domain _ Hliteral) in Hi. exact Hi.
    - split; [| reflexivity]. intros Hyes.
      apply (userIds_domainMember db orgId domain _ Hliteral) in Hyes.
      unfold userIds in Hi. congruence. }
  rewrite adminVerifyHandlerWith_cases, Hlookup, Hfound, Howner, Hupdate, Hupd, Hsearch,
    Hdomain.
  destruct (batchFault F) as [e |].
  - eexists _, _. split; [reflexivity |].
    split; [exact Hrows |]. split; [reflexivity |]. split; [reflexivity |].
    repeat split.
  - eexists _, _. split; [reflexivity |].
    split; [exact Hrows |]. split; [reflexivity |]. split; [reflexivity |].
    split; [reflexivity |]. split; [exact Hmemberships |]. split; [exact Husers |].
    intros u Hu Hemail.
    assert (Hnot : ~ domainMember db orgId domain (User.id u)).
    { intros (u0 & Hu0 & Hid & Hends & _). exact (Hemail u0 Hu0 Hid Hends). }
    split.
    + destruct (Forall2_In_left _ _ _ _ Husers Hu) as (u' & Hu' & _ & Hsame).
      rewrite (Hsame Hnot) in Hu'. exact Hu'.
    + intros m Hm Hid.
      destruct (Forall2_In_left _ _ _ _ Hmemberships Hm) as (m' & Hm' & _ & Hsame).
      rewrite Hsame in Hm'; [exact Hm' |].
      intros [Hdm _]. rewrite Hid in Hdm. contradiction.
Qed.

Lemma literalDomain_acme : literalDomain "acme.com".
Proof.
  intros c Hc. simpl in Hc. decompose [or] Hc; subst; try contradiction;
    repeat split; discriminate.
Qed.

Lemma not_endsWith_other : ~ endsWith_spec "b@other.com" "acme.com".
Proof.
  intros [prefix H].
  do 12 (destruct prefix as [| ? prefix]; [discriminate |]). discriminate.
Qed.

(** C6 on the sample organization, whose owner is owner@acme.com. When the
    store carries out every call, the call confirms the domain acme.com, and
    b@other.com, a member of the organization, is untouched together with the
    invitation to it. When the store rejects the last write of the batch, the
    call throws that error, the organization is marked verified, and a@acme.com
    is neither affiliated nor accepted: the first write of the batch has been
    undone. *)
Lemma adminVerify_accepts_domain_members_witness :
  (exists db',
     adminVerifyHandlerWith noFaults 10 AdminVerify.sampleDb
     = (Ok (Build_Reply true
              "Verified Organization - Auto accepted all members ending in acme.com"),
        db')
     /\ In (User.mk 3 "b@other.com" (Some "b"%string) None None) (Db.users db')
     /\ In (Membership.mk 3 10 MEMBER false) (Db.memberships db'))
  /\ (exists db',
        adminVerifyHandlerWith lastWriteFails 10 AdminVerify.sampleDb
        = (Err StoreUnavailable, db')
        /\ Db.organizationSettings db' = [OrganizationSettings.mk 10 true]
        /\ Db.memberships db' = Db.memberships AdminVerify.sampleDb
        /\ Db.users db' = Db.users AdminVerify.sampleDb).
Proof.
  split.
  - edestruct (adminVerify_accepts_domain_members noFaults 10 AdminVerify.sampleDb)
      as (r & db' & Hrun & _ & _ & _ & Hr & _ & _ & Huntouched).
    + reflexivity.
    + reflexivity.
    + reflexivity.
    + exact literalDomain_acme.
    + eexists. split; [left; reflexivity | reflexivity].
    + reflexivity.
    + reflexivity.
    + reflexivity.
    + exists db'. subst r. split; [exact Hrun |].
      destruct (Huntouched (User.mk 3 "b@other.com" (Some "b"%string) None None))
        as [Huser Hmemberships].
      * simpl. tauto.
      * intros u0 Hu0 Hid. simpl in Hu0. decompose [or] Hu0; subst; simpl in *;
          try discriminate; try contradiction. exact not_endsWith_other.
      * split; [exact Huser |]. apply Hmemberships; [simpl; tauto | reflexivity].
  - edestruct (adminVerify_accepts_domain_members lastWriteFails 10 AdminVerify.sampleDb)
      as (r & db' & Hrun & (pre & s & post & Hsplit & Hid & Hpre & Hrows) & _ & _
          & Hr & Hmemberships & Husers).
    + reflexivity.
    + reflexivity.
    + reflexivity.
    + exact literalDomain_acme.
    + eexists. split; [left; reflexivity | reflexivity].
    + reflexivity.
    + reflexivity.
    + reflexivity.
    + exists db'. subst r. split; [exact Hrun |].
      split; [| split; [exact Hmemberships | exact Husers]].
      rewrite Hrows. destruct pre as [| y pre].
      * injection Hsplit as <- <-. reflexivity.
      * injection Hsplit as <- Hnil. now destruct pre.
Defined.

(** C6 as the spec words it fails on four stores. With the owner demoted, the
    organization is found and has no OWNER member to take the domain from.
    Without the settings row, the call throws the store's record-not-found
    error. With an owner whose email has no "@", there is no part after it.
    With the owner on a_me.com, the confirmed domain is a_me.com, and
    a@acme.com, whose email does not end with it, is affiliated all the same:
    the user is no longer in the store as before. *)
Lemma verify_claim_fails :
  ~ verify_claim 10 ownerlessDb
  /\ ~ verify_claim 10 settingsLessDb
  /\ ~ verify_claim 10 atLessDb
  /\ ~ verify_claim 10 wildcardDb.
Proof.
  repeat split; intros Hclaim;
    destruct (Hclaim _ eq_refl) as (first & domain & db' & Hfirst & Hdomain & Hrun & Hkept).
  - discriminate Hfirst.
  - rewrite adminVerifyHandler_cases in Hrun. vm_compute in Hrun. discriminate.
  - injection Hfirst as <-. discriminate Hdomain.
  - injection Hfirst as <-. injection Hdomain as <-.
    rewrite adminVerifyHandler_cases in Hrun. apply (f_equal snd) in Hrun.
    vm_compute in Hrun. subst db'.
    assert (Hin := Hkept (User.mk 2 "a@acme.com" (Some "a"%string) None None)).
    simpl in Hin. destruct Hin as [Hin | Hin].
    + tauto.
    + intros [prefix H].
      do 11 (destruct prefix as [| ? prefix]; [discriminate |]). discriminate.
    + discriminate.
    + decompose [or] Hin; try discriminate; contradiction.
Qed.

(** * Further properties of the two handlers *)

(** ** getByViewer: the list of groups *)

Lemma teamGroup_teamId (E : Collaborators) (uid : Z) (input : option Input.t)
    (tms : list TeamMembership.t) (m : MembershipSel.t) (g : EventTypeGroup.t) :
  teamGroup E uid input tms m = Ok g ->
  EventTypeGroup.teamId g = Some (TeamSel.id (MembershipSel.team m)).
Proof. intros H. now apply teamGroup_Ok in H as (_ & _ & Hid & _). Qed.

Lemma Forall2_map_eq {A B C : Type} (f : A -> C) (g : B -> C) (l : list A) (l' : list B) :
  Forall2 (fun x y => f x = g y) l l' -> map f l = map g l'.
Proof. induction 1 as [| x y l l' Hxy _ IH]; simpl; congruence. Qed.

(** The memberships kept after normalization are the kept memberships,
    normalized. *)
Lemma kept_normalized (E : Collaborators) (input : option Input.t)
    (teams ms : list MembershipSel.t) :
  mapR (normalizeMembership E) teams = Ok ms ->
  Forall2 (fun m m' => normalizeMembership E m = Ok m')
    (filter (membershipKept E input) teams) (filter (membershipKept E input) ms).
Proof.
  intros H. apply mapR_Forall2 in H.
  apply Forall2_filter with (R := fun m m' => normalizeMembership E m = Ok m');
    [| exact H].
  intros m m' Hn. symmetry. now apply membershipKept_normalized.
Qed.

(** X1. The groups of a call that returns are, in this order, the personal
    group when it is included and then one group per accepted membership
    that the membership filter keeps, in the order of the memberships: the
    team ids of the output are [null] for the personal group followed by the
    ids of the kept teams. *)
Theorem groups_follow_memberships (E : Collaborators) (db : Db.t) (uid : Z)
    (input : option Input.t) (out : Output.t) :
  getByViewerHandler E db uid input = Ok out ->
  map EventTypeGroup.teamId (Output.eventTypeGroups out)
  = (if personalGroupIncluded E input uid then [None] else [])
    ++ map (fun m => Some (TeamSel.id (MembershipSel.team m)))
         (filter (membershipKept E input) (Query.userTeams db uid)).
Proof.
  intros Hout.
  apply getByViewerHandler_Ok in Hout
    as (user & ms & uets & tgs & _ & Hms & _ & Htgs & Hgroups).
  rewrite Hgroups, map_app. f_equal.
  - now destruct (personalGroupIncluded E input uid).
  - apply mapR_Forall2 in Htgs.
    pose proof (kept_normalized E input _ _ Hms) as Hkept.
    transitivity (map (fun m => Some (TeamSel.id (MembershipSel.team m)))
                    (filter (membershipKept E input) ms)).
    + symmetry. apply Forall2_map_eq.
      eapply Forall2_impl; [| exact Htgs].
      intros m g Hg. symmetry. now apply teamGroup_teamId in Hg.
    + symmetry. apply Forall2_map_eq.
      eapply Forall2_impl; [| exact Hkept].
      intros m m' Hn. apply normalizeMembership_Ok in Hn as (md & ->). reflexivity.
Qed.

(** X1 on the sample viewer: without input the output lists the personal
    group and the teams 11, 12, 13 and 15, leaving out the organization 10
    and the pending team 14. *)
Lemma groups_follow_memberships_witness :
  map EventTypeGroup.teamId (Output.eventTypeGroups (sampleOutput noInput))
  = [None; Some 11; Some 12; Some 13; Some 15].
Proof.
  rewrite (groups_follow_memberships sampleCollaborators GetByViewer.sampleDb 1 noInput
             (sampleOutput noInput)); [| vm_compute; reflexivity].
  vm_compute. reflexivity.
Defined.

Lemma findTeam_id (db : Db.t) (tid : Z) (t : Team.t) :
  Db.findTeam db tid = Some t -> Team.id t = tid /\ In t (Db.teams db).
Proof.
  unfold Db.findTeam. intros H. apply find_some in H as [Hin Hid].
  apply Z.eqb_eq in Hid. now split.
Qed.

Lemma membershipKept_not_organization (E : Collaborators) (input : option Input.t)
    (m : MembershipSel.t) :
  membershipKept E input m = true ->
  TeamSel.isOrganization (MembershipSel.team m) = false.
Proof.
  unfold membershipKept.
  destruct (TeamSel.isOrganization (MembershipSel.team m)); [discriminate | reflexivity].
Qed.

(** X2. Every team group of the output stems from a membership row of the
    viewer that is accepted and whose team exists and is not an organization
    root: a pending invitation, another user's membership or an organization
    never yields a group. *)
Theorem team_groups_from_accepted_memberships (E : Collaborators) (db : Db.t) (uid : Z)
    (input : option Input.t) (out : Output.t) (g : EventTypeGroup.t) :
  getByViewerHandler E db uid input = Ok out ->
  In g (Output.eventTypeGroups out) ->
  EventTypeGroup.teamId g <> None ->
  exists row t,
    In row (Db.memberships db)
    /\ Membership.userId row = uid
    /\ Membership.accepted row = true
    /\ Db.findTeam db (Membership.teamId row) = Some t
    /\ Team.isOrganization t = false
    /\ EventTypeGroup.teamId g = Some (Membership.teamId row)
    /\ EventTypeGroup.parentId g = Team.parentId t.
Proof.
  intros Hout Hg Hteam.
  destruct (team_group_origin E db uid input out g Hout Hg Hteam)
    as (m & md & Hm & Hkept & Hbuilt).
  apply membershipKept_not_organization in Hkept.
  apply teamGroup_Ok in Hbuilt as (_ & _ & Hid & Hpar & _).
  apply userTeams_team in Hm as (row & t & Hrow & Huid & Hacc & Ht & ->).
  simpl in Hkept, Hid, Hpar.
  destruct (findTeam_id _ _ _ Ht) as [Htid _].
  exists row, t. rewrite <- Htid. repeat split; try assumption. now rewrite Htid.
Qed.

(** X2 on the sample viewer: the group of team 12 stems from an accepted
    membership row of user 1. *)
Lemma team_groups_from_accepted_memberships_witness :
  exists g row,
    sampleGroup noInput 12 = Some g
    /\ In row (Db.memberships GetByViewer.sampleDb)
    /\ Membership.userId row = 1
    /\ Membership.accepted row = true
    /\ EventTypeGroup.teamId g = Some (Membership.teamId row).
Proof.
  destruct (sampleGroup noInput 12) as [g |] eqn:Hg; [| found_group Hg].
  destruct (sampleGroup_Some _ _ _ Hg) as [Hin Hteam].
  destruct (team_groups_from_accepted_memberships sampleCollaborators
              GetByViewer.sampleDb 1 noInput (sampleOutput noInput) g)
    as (row & t & Hrow & Huid & Hacc & _ & _ & Hid & _);
    [evaluated | exact Hin | rewrite Hteam; discriminate |].
  exists g, row. repeat split; assumption.
Defined.

(** ** getByViewer: the profiles *)

Lemma getByViewerHandler_profiles (E : Collaborators) (db : Db.t) (uid : Z)
    (input : option Input.t) (out : Output.t) :
  getByViewerHandler E db uid input = Ok out ->
  Output.profiles out = map toProfileSummary (Output.eventTypeGroups out).
Proof.
  unfold getByViewerHandler. intros H.
  apply bindR_Ok in H as (_ & _ & H).
  destruct (Query.user_findUnique db uid _) as [user |]; [| discriminate].
  unfold groupsOfUser in H.
  apply bindR_Ok in H as (ms & _ & H).
  apply bindR_Ok in H as (uets & _ & H).
  apply bindR_Ok in H as (tgs & _ & H).
  injection H as <-. reflexivity.
Qed.

(** X3. The profiles of the output line up with its groups: there is one
    profile per group, in the same order, and it carries the team id, the
    effective role, the slug, name and image of the group's profile and the
    membership count and read-only flag of the group's metadata. *)
Theorem profiles_mirror_groups (E : Collaborators) (db : Db.t) (uid : Z)
    (input : option Input.t) (out : Output.t) :
  getByViewerHandler E db uid input = Ok out ->
  Forall2
    (fun g p =>
       ProfileSummary.teamId p = EventTypeGroup.teamId g
       /\ ProfileSummary.membershipRole p = EventTypeGroup.membershipRole g
       /\ ProfileSummary.slug p = Profile.slug (EventTypeGroup.profile g)
       /\ ProfileSummary.name p = Profile.name (EventTypeGroup.profile g)
       /\ ProfileSummary.image p = Profile.image (EventTypeGroup.profile g)
       /\ ProfileSummary.membershipCount p
          = GroupMetadata.membershipCount (EventTypeGroup.metadata g)
       /\ ProfileSummary.readOnly p = GroupMetadata.readOnly (EventTypeGroup.metadata g))
    (Output.eventTypeGroups out) (Output.profiles out).
Proof.
  intros Hout. rewrite (getByViewerHandler_profiles E db uid input out Hout).
  apply Forall2_map_keys. intros g. repeat split.
Qed.

(** X3 on the sample viewer: the profiles of an unfiltered request name the
    same teams as the groups, in the same order. *)
Lemma profiles_mirror_groups_witness :
  map ProfileSummary.teamId (Output.profiles (sampleOutput noInput))
  = map EventTypeGroup.teamId (Output.eventTypeGroups (sampleOutput noInput)).
Proof.
  symmetry. apply Forall2_map_eq.
  eapply Forall2_impl;
    [| apply (profiles_mirror_groups sampleCollaborators GetByViewer.sampleDb 1 noInput);
       vm_compute; reflexivity].
  intros g p (Hid & _). now rewrite Hid.
Defined.

(** ** getByViewer: the event types of a kept team *)

Lemma mapEventType_team (E : Collaborators) (e : EventTypeSel.t) (e' : MappedEventType.t) :
  mapEventType E e = Ok e' -> MappedEventType.team e' = EventTypeSel.team e.
Proof.
  unfold mapEventType. intros H. apply bindR_Ok in H as (md & _ & H).
  now injection H as <-.
Qed.

(** The event types that the query attaches to a team of the viewer name
    that team. *)
Lemma teamEventTypes_team (db : Db.t) (uid : Z) (m : MembershipSel.t) (e : EventTypeSel.t) :
  In m (Query.userTeams db uid) ->
  In e (TeamSel.eventTypes (MembershipSel.team m)) ->
  option_map TeamBrief.id (EventTypeSel.team e) = Some (TeamSel.id (MembershipSel.team m)).
Proof.
  intros Hm He.
  apply userTeams_team in Hm as (row & t & _ & _ & _ & Ht & ->). simpl in *.
  destruct (findTeam_id _ _ _ Ht) as [Htid _].
  unfold Query.teamEventTypes in He. apply in_map_iff in He as (r & <- & Hr).
  apply orderBy_In in Hr. apply filter_In in Hr as [_ Hr].
  apply option_Z_eqb_eq in Hr. simpl. rewrite Hr. simpl.
  rewrite Htid, Ht. simpl. now rewrite Htid.
Qed.

(** X4. Inside a team group the team filter check removes nothing: the
    event types of the group are exactly the team's mapped event types that
    are owned by nobody or by the viewer and, when the viewer's native role
    is MEMBER, are not MANAGED, whatever the filter set of the request. *)
Theorem team_group_lists_all_visible_event_types (E : Collaborators) (db : Db.t)
    (uid : Z) (input : option Input.t) (out : Output.t) (g : EventTypeGroup.t) :
  getByViewerHandler E db uid input = Ok out ->
  In g (Output.eventTypeGroups out) ->
  EventTypeGroup.teamId g <> None ->
  exists m mapped,
    In m (Query.userTeams db uid)
    /\ EventTypeGroup.teamId g = Some (TeamSel.id (MembershipSel.team m))
    /\ mapR (mapEventType E) (TeamSel.eventTypes (MembershipSel.team m)) = Ok mapped
    /\ forall e,
         In e (EventTypeGroup.eventTypes g)
         <-> In e mapped
             /\ (MappedEventType.userId e = None \/ MappedEventType.userId e = Some uid)
             /\ (MembershipSel.role m = MEMBER ->
                 MappedEventType.schedulingType e <> Some MANAGED).
Proof.
  intros Hout Hg Hteam.
  destruct (team_group_origin E db uid input out g Hout Hg Hteam)
    as (m & md & Hm & Hkept & Hbuilt).
  apply teamGroup_Ok in Hbuilt as (mapped & Hmapped & Hid & _ & _ & _ & _ & Hevs).
  simpl in Hmapped, Hid, Hevs.
  exists m, mapped. split; [exact Hm |]. split; [exact Hid |]. split; [exact Hmapped |].
  assert (Hcheck : forall e, In e mapped ->
            filterTeamsEventTypesBasedOnInput E input e = true).
  { intros e He.
    destruct (mapR_In_image _ _ _ _ Hmapped He) as (sel & Hsel & Hmap).
    unfold filterTeamsEventTypesBasedOnInput.
    rewrite (mapEventType_team E sel e Hmap), (teamEventTypes_team db uid m sel Hm Hsel).
    unfold membershipKept in Hkept.
    destruct (TeamSel.isOrganization (MembershipSel.team m)); [discriminate |].
    exact Hkept. }
  intros e. rewrite Hevs. unfold teamGroupEventTypes.
  rewrite !filter_In, ownedByNobodyOrViewer. split.
  - intros [[[He _] Howner] Hrole]. repeat split; try assumption.
    intros Hmember. rewrite Hmember in Hrole. simpl in Hrole. now apply notManaged_true.
  - intros (He & Howner & Hrole). repeat split; try assumption.
    + now apply Hcheck.
    + destruct (MembershipRole_eqb (MembershipSel.role m) MEMBER) eqn:Heq; [| reflexivity].
      apply MembershipRole_eqb_eq in Heq. apply notManaged_true. now apply Hrole.
Qed.

(** X4 on the sample viewer, OWNER of team 12, in a request that filters on
    team 12: the group lists both event types of the team, the MANAGED 120
    included. *)
Lemma team_group_lists_all_visible_event_types_witness :
  exists g,
    sampleGroup (inputWithFilters (Some [12]) None) 12 = Some g
    /\ map MappedEventType.id (EventTypeGroup.eventTypes g) = [121; 120]
    /\ forall e, In e (EventTypeGroup.eventTypes g) ->
         MappedEventType.userId e = None \/ MappedEventType.userId e = Some 1.
Proof.
  destruct (sampleGroup (inputWithFilters (Some [12]) None) 12) as [g |] eqn:Hg;
    [| found_group Hg].
  exists g. split; [reflexivity |].
  destruct (sampleGroup_Some _ _ _ Hg) as [Hin Hteam].
  destruct (team_group_lists_all_visible_event_types sampleCollaborators
              GetByViewer.sampleDb 1 (inputWithFilters (Some [12]) None)
              (sampleOutput (inputWithFilters (Some [12]) None)) g)
    as (m & mapped & _ & _ & _ & Hiff);
    [evaluated | exact Hin | rewrite Hteam; discriminate |].
  split.
  - found_group Hg. vm_compute. reflexivity.
  - intros e He. now apply Hiff in He.
Defined.

(** ** getByViewer: read-only flag and membership count *)

Lemma resolveReadOnly_native_member (org : option MembershipRole) (role : MembershipRole)
    (parentId : option Z) :
  resolveReadOnly org role parentId = true -> role = MEMBER.
Proof.
  unfold resolveReadOnly. destruct (Js.truthy_number parentId).
  - destruct org as [o |]; [destruct o |]; destruct role; vm_compute; congruence.
  - destruct role; vm_compute; congruence.
Qed.

(** X5. A team group is read-only only for a viewer whose native role in
    the team is MEMBER: an ADMIN or OWNER of the team never gets a read-only
    group, whatever the team's parent and the viewer's role there. *)
Theorem read_only_only_for_native_members (E : Collaborators) (db : Db.t) (uid : Z)
    (input : option Input.t) (out : Output.t) (g : EventTypeGroup.t) :
  getByViewerHandler E db uid input = Ok out ->
  In g (Output.eventTypeGroups out) ->
  GroupMetadata.readOnly (EventTypeGroup.metadata g) = true ->
  exists m,
    In m (Query.userTeams db uid)
    /\ EventTypeGroup.teamId g = Some (TeamSel.id (MembershipSel.team m))
    /\ MembershipSel.role m = MEMBER.
Proof.
  intros Hout Hg Hro.
  destruct (EventTypeGroup.teamId g) as [tid |] eqn:Hteam.
  - destruct (team_group_origin E db uid input out g Hout Hg) as (m & md & Hm & _ & Hbuilt).
    { rewrite Hteam. discriminate. }
    apply teamGroup_Ok in Hbuilt as (_ & _ & Hid & _ & _ & _ & Hflag & _).
    simpl in Hid, Hflag. rewrite Hro in Hflag. symmetry in Hflag.
    apply resolveReadOnly_native_member in Hflag.
    exists m. rewrite <- Hteam. repeat split; assumption.
  - destruct (personal_group_shape E db uid input out Hout) as [Hshape Hnone].
    destruct (personalGroupIncluded E input uid) eqn:Hincl.
    + destruct (Hshape eq_refl) as (g0 & rest & uets & Hgroups & _ & Hrest & _).
      apply getByViewerHandler_Ok in Hout
        as (user & ms & uets' & tgs & _ & _ & _ & _ & Hgroups').
      rewrite Hincl in Hgroups'. rewrite Hgroups' in Hgroups, Hg. simpl in Hgroups, Hg.
      injection Hgroups as <- <-.
      destruct Hg as [<- | Hg]; [discriminate Hro |].
      elim (Hrest g Hg Hteam).
    + elim (Hnone eq_refl g Hg Hteam).
Qed.

(** X5 on the sample viewer: the one read-only group of an unfiltered
    request whose team is 13 belongs to a membership with the role MEMBER. *)
Lemma read_only_only_for_native_members_witness :
  exists g m,
    sampleGroup noInput 13 = Some g
    /\ In m (Query.userTeams GetByViewer.sampleDb 1)
    /\ EventTypeGroup.teamId g = Some (TeamSel.id (MembershipSel.team m))
    /\ MembershipSel.role m = MEMBER.
Proof.
  destruct (sampleGroup noInput 13) as [g |] eqn:Hg; [| found_group Hg].
  destruct (sampleGroup_Some _ _ _ Hg) as [Hin _].
  destruct (read_only_only_for_native_members sampleCollaborators GetByViewer.sampleDb 1
              noInput (sampleOutput noInput) g) as (m & Hm & Hid & Hrole);
    [evaluated | exact Hin | found_group Hg; reflexivity |].
  exists g, m. repeat split; assumption.
Defined.

Lemma teamGroup_membershipCount (E : Collaborators) (uid : Z) (input : option Input.t)
    (tms : list TeamMembership.t) (m : MembershipSel.t) (g : EventTypeGroup.t) :
  teamGroup E uid input tms m = Ok g ->
  GroupMetadata.membershipCount (EventTypeGroup.metadata g)
  = Z.of_nat (List.length (TeamSel.members (MembershipSel.team m))).
Proof.
  unfold teamGroup. intros H.
  apply bindR_Ok in H as (md & _ & H).
  apply bindR_Ok in H as (mapped & _ & H).
  now injection H as <-.
Qed.

(** X6. The membership count of a team group is the number of membership
    rows of that team in the store, those of other users and those not yet
    accepted included; the personal group counts one member, is never
    read-only and has no role. *)
Theorem group_membership_count (E : Collaborators) (db : Db.t) (uid : Z)
    (input : option Input.t) (out : Output.t) (g : EventTypeGroup.t) :
  getByViewerHandler E db uid input = Ok out ->
  In g (Output.eventTypeGroups out) ->
  match EventTypeGroup.teamId g with
  | Some tid =>
      GroupMetadata.membershipCount (EventTypeGroup.metadata g)
      = Z.of_nat (List.length
                    (filter (fun row => Membership.teamId row =? tid) (Db.memberships db)))
  | None =>
      GroupMetadata.membershipCount (EventTypeGroup.metadata g) = 1
      /\ GroupMetadata.readOnly (EventTypeGroup.metadata g) = false
      /\ EventTypeGroup.membershipRole g = None
  end.
Proof.
  intros Hout Hg.
  destruct (EventTypeGroup.teamId g) as [tid |] eqn:Hteam.
  - destruct (team_group_origin E db uid input out g Hout Hg) as (m & md & Hm & _ & Hbuilt).
    { rewrite Hteam. discriminate. }
    rewrite (teamGroup_membershipCount E _ _ _ _ _ Hbuilt).
    apply teamGroup_teamId in Hbuilt. rewrite Hteam in Hbuilt. injection Hbuilt as ->.
    apply userTeams_team in Hm as (row & t & _ & _ & _ & _ & ->). simpl.
    now rewrite length_map.
  - apply getByViewerHandler_Ok in Hout
      as (user & ms & uets & tgs & _ & _ & _ & Htgs & Hgroups).
    rewrite Hgroups in Hg. apply in_app_or in Hg as [Hg | Hg].
    + destruct (personalGroupIncluded E input uid); simpl in Hg; [| contradiction].
      destruct Hg as [<- | []]. repeat split.
    + destruct (mapR_In_image _ _ _ _ Htgs Hg) as (m & _ & Hbuilt).
      apply teamGroup_teamId in Hbuilt. congruence.
Qed.

(** X6 on the sample viewer: team 11 has two membership rows, the viewer's
    and bob's, and its group counts two members. *)
Lemma group_membership_count_witness :
  exists g,
    sampleGroup noInput 11 = Some g
    /\ GroupMetadata.membershipCount (EventTypeGroup.metadata g) = 2.
Proof.
  destruct (sampleGroup noInput 11) as [g |] eqn:Hg; [| found_group Hg].
  destruct (sampleGroup_Some _ _ _ Hg) as [Hin Hteam].
  exists g. split; [reflexivity |].
  pose proof (group_membership_count sampleCollaborators GetByViewer.sampleDb 1 noInput
                (sampleOutput noInput) g) as Hcount.
  rewrite Hteam in Hcount. rewrite Hcount; [reflexivity | evaluated | exact Hin].
Defined.

(** ** getByViewer: what the personal group lists *)

Lemma getPrismaWhereUserIdFromFilter_range (E : Collaborators) (userId : Z)
    (filters : option Filters.t) :
  getPrismaWhereUserIdFromFilter E userId filters = userId
  \/ getPrismaWhereUserIdFromFilter E userId filters = 0.
Proof.
  unfold getPrismaWhereUserIdFromFilter.
  destruct filters as [f |]; [| now left].
  destruct (negb (hasFilter E f)); [now left |].
  destruct (Filters.userIds f) as [[| first l] |]; try now right.
  destruct (first =? userId); [now left | now right].
Qed.

(** X7. Whatever the filter set, every event type of the personal group
    shows a row of the store that has no team, is reached through the
    viewer's own event-type relation and is not MANAGED, and its owner is the
    viewer or the id 0 that the query falls back to: listing another user's
    id in [filters.userIds] never brings that user's event types into the
    output. *)
Theorem personal_group_lists_only_own_event_types (E : Collaborators) (db : Db.t)
    (uid : Z) (input : option Input.t) (out : Output.t) (g : EventTypeGroup.t)
    (e : MappedEventType.t) :
  getByViewerHandler E db uid input = Ok out ->
  In g (Output.eventTypeGroups out) ->
  EventTypeGroup.teamId g = None ->
  In e (EventTypeGroup.eventTypes g) ->
  MappedEventType.schedulingType e <> Some MANAGED
  /\ MappedEventType.team e = None
  /\ (MappedEventType.userId e = Some uid \/ MappedEventType.userId e = Some 0)
  /\ exists row,
       In row (Db.eventTypes db)
       /\ showsRow row e
       /\ EventType.teamId row = None
       /\ In uid (EventType.users row).
Proof.
  intros Hout Hg Hteam He.
  destruct (personal_group_shape E db uid input out Hout) as [Hshape Hnone].
  destruct (personalGroupIncluded E input uid) eqn:Hincl;
    [| elim (Hnone eq_refl g Hg Hteam)].
  destruct (Hshape eq_refl) as (g0 & rest & uets & Hgroups & _ & Hrest & Hmapped & Hevs).
  rewrite Hgroups in Hg. destruct Hg as [<- | Hg]; [| elim (Hrest g Hg Hteam)].
  rewrite Hevs in He. apply filter_In in He as [He Hunmanaged].
  destruct (mapR_In_image _ _ _ _ Hmapped He) as (sel & Hsel & Hmap).
  unfold Query.userEventTypes in Hsel. apply in_map_iff in Hsel as (row & <- & Hrow).
  apply orderBy_In in Hrow. apply filter_In in Hrow as [Hrow Hcond].
  apply andb_true_iff in Hcond as [Hcond Howner].
  apply andb_true_iff in Hcond as [Husers Hnoteam].
  apply includes_In in Husers. apply option_Z_eqb_eq in Hnoteam, Howner.
  pose proof (mapEventType_team E _ _ Hmap) as Hteam'.
  apply mapEventType_keys in Hmap as (Hp & Hi & Hs & Hu). simpl in Hp, Hi, Hs, Hu, Hteam'.
  split; [now apply notManaged_true |].
  split; [rewrite Hteam', Hnoteam; reflexivity |].
  split.
  - rewrite Hu, Howner.
    destruct (getPrismaWhereUserIdFromFilter_range E uid (input_filters input)) as [-> | ->];
      [now left | now right].
  - exists row. repeat split; assumption.
Qed.

(** X7 on the sample viewer in a request that lists the ids of bob and of
    the viewer: the personal group shows nothing of bob's event type 103. *)
Lemma personal_group_lists_only_own_event_types_witness :
  Forall
    (fun g =>
       EventTypeGroup.teamId g = None ->
       Forall (fun e => MappedEventType.userId e = Some 1 \/ MappedEventType.userId e = Some 0)
         (EventTypeGroup.eventTypes g))
    (Output.eventTypeGroups (sampleOutput (inputWithFilters None (Some [1; 2])))).
Proof.
  apply Forall_forall. intros g Hg Hteam. apply Forall_forall. intros e He.
  apply (personal_group_lists_only_own_event_types sampleCollaborators
           GetByViewer.sampleDb 1 (inputWithFilters None (Some [1; 2]))
           (sampleOutput (inputWithFilters None (Some [1; 2]))) g e);
    [vm_compute; reflexivity | exact Hg | exact Hteam | exact He].
Defined.

(** ** getByViewer: when the call returns *)

Lemma mapR_Ok_iff {A B : Type} (f : A -> Result B) (l : list A) :
  (exists l', mapR f l = Ok l') <-> forall x, In x l -> exists y, f x = Ok y.
Proof.
  split.
  - intros (l' & H) x Hx.
    destruct (mapR_In_source _ _ _ _ H Hx) as (y & _ & Hy). now exists y.
  - induction l as [| x l IH]; intros H; simpl.
    + now exists [].
    + destruct (H x (or_introl eq_refl)) as (y & ->).
      destruct IH as (l' & ->); [intros z Hz; apply H; now right |].
      now exists (y :: l').
Qed.

Lemma mapEventType_succeeds_iff (E : Collaborators) (e : EventTypeSel.t) :
  (exists e', mapEventType E e = Ok e')
  <-> Js.truthy_json (EventTypeSel.metadata e) = false
      \/ exists md, EventTypeMetaDataSchema_parse E (EventTypeSel.metadata e) = Ok md.
Proof.
  unfold mapEventType. destruct (Js.truthy_json (EventTypeSel.metadata e)).
  - destruct (EventTypeMetaDataSchema_parse E (EventTypeSel.metadata e)) as [md | err];
      simpl; split.
    + intros _. right. now exists md.
    + intros _. eexists. reflexivity.
    + intros (e' & H). discriminate.
    + intros [H | (md & H)]; discriminate.
  - simpl. split; [now left | intros _; eexists; reflexivity].
Qed.

Lemma normalizeMembership_succeeds (E : Collaborators) (m : MembershipSel.t)
    (md : Js.JsonValue) :
  teamMetadataSchema_parse E (TeamSel.metadata (MembershipSel.team m)) = Ok md ->
  normalizeMembership E m
  = Ok (MembershipSel.mk (MembershipSel.role m)
          (TeamSel.set_metadata md (MembershipSel.team m))).
Proof. unfold normalizeMembership. now intros ->. Qed.

Lemma teamGroup_succeeds_iff (E : Collaborators) (uid : Z) (input : option Input.t)
    (tms : list TeamMembership.t) (m : MembershipSel.t) :
  (exists g, teamGroup E uid input tms m = Ok g)
  <-> (exists md, teamMetadataSchema_parse E (TeamSel.metadata (MembershipSel.team m)) = Ok md)
      /\ forall e, In e (TeamSel.eventTypes (MembershipSel.team m)) ->
           exists e', mapEventType E e = Ok e'.
Proof.
  rewrite <- mapR_Ok_iff. unfold teamGroup. split.
  - intros (g & H).
    apply bindR_Ok in H as (md & Hmd & H).
    apply bindR_Ok in H as (mapped & Hmapped & _).
    split; [now exists md | now exists mapped].
  - intros [(md & ->) (mapped & Hmapped)]. simpl in *. rewrite Hmapped. simpl.
    eexists. reflexivity.
Qed.

(** X8. The call returns a result exactly when the rate limiter lets the
    viewer through, the viewer's id resolves, the metadata of the team of
    every accepted membership parses (organization roots and teams that the
    filter excludes included), the metadata of every personal event type that
    the query returns parses when it is set, and, for every membership that
    the membership filter keeps, the parsed team metadata parses once more
    and so does the metadata of the team's event types. The event types of a
    team that is not kept are never looked at. *)
Theorem getByViewerHandler_succeeds_iff (E : Collaborators) (db : Db.t) (uid : Z)
    (input : option Input.t) :
  (exists out, getByViewerHandler E db uid input = Ok out)
  <-> checkRateLimitAndThrowError E uid = Ok tt
      /\ (exists u, Db.findUser db uid = Some u)
      /\ (forall m, In m (Query.userTeams db uid) ->
            exists md, teamMetadataSchema_parse E (TeamSel.metadata (MembershipSel.team m))
                       = Ok md)
      /\ (forall e,
            In e (Query.userEventTypes db uid
                    (getPrismaWhereUserIdFromFilter E uid (input_filters input))) ->
            exists e', mapEventType E e = Ok e')
      /\ (forall m md,
            In m (Query.userTeams db uid) ->
            membershipKept E input m = true ->
            teamMetadataSchema_parse E (TeamSel.metadata (MembershipSel.team m)) = Ok md ->
            (exists md', teamMetadataSchema_parse E md = Ok md')
            /\ forall e, In e (TeamSel.eventTypes (MembershipSel.team m)) ->
                 exists e', mapEventType E e = Ok e').
Proof.
  split.
  - intros (out & H).
    pose proof (getByViewerHandler_Ok E db uid input out H)
      as (user & ms & uets & tgs & Huser & Hms & Huets & Htgs & _).
    unfold getByViewerHandler in H. apply bindR_Ok in H as ([] & Hrate & _).
    destruct (user_findUnique_Some _ _ _ _ Huser) as (_ & _ & Hevs).
    rewrite Hevs in Huets.
    split; [exact Hrate |]. split; [| split; [| split]].
    + unfold Query.user_findUnique in Huser.
      destruct (Db.findUser db uid) as [u |]; [now exists u | discriminate].
    + intros m Hm. destruct (mapR_In_source _ _ _ _ Hms Hm) as (m' & _ & Hn).
      unfold normalizeMembership in Hn. apply bindR_Ok in Hn as (md & Hmd & _).
      now exists md.
    + apply (proj1 (mapR_Ok_iff (mapEventType E) _)). now exists uets.
    + intros m md Hm Hkept Hmd.
      destruct (mapR_In_source _ _ _ _ Hms Hm) as (m' & Hm' & Hn).
      rewrite (normalizeMembership_succeeds E m md Hmd) in Hn. injection Hn as <-.
      assert (Hin : In (MembershipSel.mk (MembershipSel.role m)
                          (TeamSel.set_metadata md (MembershipSel.team m)))
                      (filter (membershipKept E input) ms)).
      { apply filter_In. split; [exact Hm' | exact Hkept]. }
      destruct (mapR_In_source _ _ _ _ Htgs Hin) as (g & _ & Hg).
      apply (proj1 (teamGroup_succeeds_iff E uid input
                      (teamMembershipsOf (Query.userTeams db uid))
                      (MembershipSel.mk (MembershipSel.role m)
                         (TeamSel.set_metadata md (MembershipSel.team m))))).
      now exists g.
  - intros (Hrate & (u & Hu) & Hteams & Hevs & Hkept).
    unfold getByViewerHandler, Query.user_findUnique. rewrite Hrate, Hu. simpl.
    unfold groupsOfUser. simpl.
    destruct (proj2 (mapR_Ok_iff (normalizeMembership E) (Query.userTeams db uid)))
      as (ms & Hms).
    { intros m Hm. destruct (Hteams m Hm) as (md & Hmd).
      rewrite (normalizeMembership_succeeds E m md Hmd). eexists. reflexivity. }
    rewrite Hms. simpl.
    destruct (proj2 (mapR_Ok_iff (mapEventType E) _) Hevs) as (uets & ->). simpl.
    destruct (proj2 (mapR_Ok_iff
                       (teamGroup E uid input (teamMembershipsOf (Query.userTeams db uid)))
                       (filter (membershipKept E input) ms))) as (tgs & ->).
    { intros m' Hm'. apply filter_In in Hm' as [Hm' Hk].
      destruct (mapR_In_image _ _ _ _ Hms Hm') as (m & Hm & Hn).
      rewrite (membershipKept_normalized E input m m' Hn) in Hk.
      pose proof Hn as Hn'. unfold normalizeMembership in Hn'.
      apply bindR_Ok in Hn' as (md & Hmd & Heq). injection Heq as <-.
      apply (proj2 (teamGroup_succeeds_iff E uid input _ _)). simpl.
      exact (Hkept m md Hm Hk Hmd). }
    simpl. eexists. reflexivity.
Qed.

(** ** Role strength as an order *)

(** X9. [compareMembership] is a strict total order on the roles: no role
    is stronger than itself, being stronger is transitive, and of two
    different roles exactly one is stronger than the other. *)
Theorem compareMembership_strict_total_order :
  (forall a, compareMembership a a = false)
  /\ (forall a b c,
        compareMembership a b = true -> compareMembership b c = true ->
        compareMembership a c = true)
  /\ (forall a b, a <> b -> compareMembership a b = negb (compareMembership b a)).
Proof.
  split; [| split].
  - intros a. now destruct a.
  - intros a b c. destruct a, b, c; vm_compute; congruence.
  - intros a b Hne. destruct a, b; try reflexivity; now elim Hne.
Qed.

(** ** adminVerify: every outcome of a call *)



(** X11. When the organization and an owner are found but no settings row
    has the organization's id, the call fails with the store's
    record-not-found error before any member is accepted. *)
Theorem adminVerify_without_settings_row (orgId : Z) (db : Db.t) (org : FoundOrg)
    (first : Member) (rest : list Member) :
  team_findFirst orgId db = Some org ->
  members org = first :: rest ->
  (forall s, In s (Db.organizationSettings db) ->
     OrganizationSettings.organizationId s <> orgId) ->
  adminVerifyHandler orgId db = (Err RecordNotFound, db).
Proof.
  intros Hfound Hmembers Hnone.
  rewrite adminVerifyHandler_cases, Hfound, Hmembers.
  assert (Hupd : updateFirst
                   (fun s => OrganizationSettings.organizationId s =? orgId)
                   (OrganizationSettings.set_isOrganizationVerified true)
                   (Db.organizationSettings db) = None).
  { induction (Db.organizationSettings db) as [| s l IH]; simpl; [reflexivity |].
    destruct (Z.eqb_spec (OrganizationSettings.organizationId s) orgId) as [Heq | _].
    - elim (Hnone s (or_introl eq_refl) Heq).
    - rewrite IH; [reflexivity |]. intros s' Hs'. apply Hnone. now right. }
  now rewrite Hupd.
Qed.

(** X11 on the sample organization without its settings row. *)
Lemma adminVerify_without_settings_row_witness :
  adminVerifyHandler 10 settingsLessDb = (Err RecordNotFound, settingsLessDb).
Proof.
  eapply adminVerify_without_settings_row.
  - reflexivity.
  - reflexivity.
  - intros s [].
Defined.

(** ** adminVerify: what a call never changes *)

Lemma Forall2_same {A : Type} (R : A -> A -> Prop) (l : list A) :
  (forall x, R x x) -> Forall2 R l l.
Proof. intros H. induction l; constructor; auto. Qed.

Lemma updateFirst_rows {A : Type} (p : A -> bool) (f : A -> A) (l l' : list A) :
  updateFirst p f l = Some l' ->
  Forall2 (fun x y => y = x \/ (p x = true /\ y = f x)) l l'.
Proof.
  revert l'. induction l as [| x l IH]; simpl; intros l' H; [discriminate |].
  destruct (p x) eqn:Hp.
  - injection H as <-. constructor; [now right |].
    apply Forall2_same. now left.
  - destruct (updateFirst p f l) as [l0 |]; [| discriminate].
    injection H as <-. constructor; [now left | now apply IH].
Qed.

(** X12. Whatever its outcome, a call leaves the teams and the event types
    as they are and keeps every row of the other tables in its place: a
    membership keeps its user, team and role and is never un-accepted; a user
    keeps id, email, username and name, and the organization id either stays
    or becomes the verified organization; a settings row keeps its
    organization, and its verified flag changes only by being set on a row of
    the verified organization. *)
Theorem adminVerify_preserves (orgId : Z) (db : Db.t) :
  Db.teams (snd (adminVerifyHandler orgId db)) = Db.teams db
  /\ Db.eventTypes (snd (adminVerifyHandler orgId db)) = Db.eventTypes db
  /\ Forall2
       (fun m m' =>
          Membership.userId m' = Membership.userId m
          /\ Membership.teamId m' = Membership.teamId m
          /\ Membership.role m' = Membership.role m
          /\ (Membership.accepted m = true -> Membership.accepted m' = true))
       (Db.memberships db) (Db.memberships (snd (adminVerifyHandler orgId db)))
  /\ Forall2
       (fun u u' =>
          User.id u' = User.id u
          /\ User.email u' = User.email u
          /\ User.username u' = User.username u
          /\ User.name u' = User.name u
          /\ (User.organizationId u' = User.organizationId u
              \/ User.organizationId u' = Some orgId))
       (Db.users db) (Db.users (snd (adminVerifyHandler orgId db)))
  /\ Forall2
       (fun s s' =>
          OrganizationSettings.organizationId s' = OrganizationSettings.organizationId s
          /\ (OrganizationSettings.isOrganizationVerified s'
              = OrganizationSettings.isOrganizationVerified s
              \/ (OrganizationSettings.organizationId s = orgId
                  /\ OrganizationSettings.isOrganizationVerified s' = true)))
       (Db.organizationSettings db)
       (Db.organizationSettings (snd (adminVerifyHandler orgId db))).
Proof.
  assert (Hsame :
    Db.teams db = Db.teams db
    /\ Db.eventTypes db = Db.eventTypes db
    /\ Forall2
         (fun m m' =>
            Membership.userId m' = Membership.userId m
            /\ Membership.teamId m' = Membership.teamId m
            /\ Membership.role m' = Membership.role m
            /\ (Membership.accepted m = true -> Membership.accepted m' = true))
         (Db.memberships db) (Db.memberships db)
    /\ Forall2
         (fun u u' =>
            User.id u' = User.id u
            /\ User.email u' = User.email u
            /\ User.username u' = User.username u
            /\ User.name u' = User.name u
            /\ (User.organizationId u' = User.organizationId u
                \/ User.organizationId u' = Some orgId))
         (Db.users db) (Db.users db)
    /\ Forall2
         (fun s s' =>
            OrganizationSettings.organizationId s' = OrganizationSettings.organizationId s
            /\ (OrganizationSettings.isOrganizationVerified s'
                = OrganizationSettings.isOrganizationVerified s
                \/ (OrganizationSettings.organizationId s = orgId
                    /\ OrganizationSettings.isOrganizationVerified s' = true)))
         (Db.organizationSettings db) (Db.organizationSettings db)).
  { repeat split; try reflexivity; apply Forall2_same; intros; repeat split; auto. }
  rewrite adminVerifyHandler_cases.
  destruct (team_findFirst orgId db) as [org |]; [| exact Hsame].
  destruct (members org) as [| first rest]; [exact Hsame |].
  destruct (updateFirst _ _ (Db.organizationSettings db)) as [rows |] eqn:Hupd;
    [| exact Hsame].
  clear Hsame. simpl. split; [reflexivity |]. split; [reflexivity |].
  split; [| split].
  - apply Forall2_map_keys. intros m. unfold acceptMembership.
    destruct (membershipTargeted _ _ _ m); simpl; repeat split; auto.
  - apply Forall2_map_keys. intros u. unfold affiliateUser.
    destruct (Js.includes _ (User.id u)); simpl; repeat split; auto.
  - apply updateFirst_rows in Hupd. eapply Forall2_impl; [| exact Hupd].
    intros s s' [-> | [Hp ->]]; simpl.
    + split; [reflexivity | now left].
    + apply Z.eqb_eq in Hp. split; [reflexivity | right; now split].
Qed.

(** ** adminVerify: a second call *)

Lemma find_map {A B : Type} (q : B -> bool) (h : A -> B) (l : list A) :
  find q (map h l) = option_map h (find (fun x => q (h x)) l).
Proof.
  induction l as [| x l IH]; simpl; [reflexivity |].
  destruct (q (h x)); [reflexivity | exact IH].
Qed.

Lemma filter_map_comm {A B : Type} (q : B -> bool) (h : A -> B) (l : list A) :
  filter q (map h l) = map h (filter (fun x => q (h x)) l).
Proof.
  induction l as [| x l IH]; simpl; [reflexivity |].
  destruct (q (h x)); simpl; now rewrite IH.
Qed.

Lemma existsb_map_comm {A B : Type} (q : B -> bool) (h : A -> B) (l : list A) :
  existsb q (map h l) = existsb (fun x => q (h x)) l.
Proof. induction l as [| x l IH]; simpl; [reflexivity | now rewrite IH]. Qed.

Lemma affiliateUser_keeps (userIds : list Z) (orgId : Z) (u : User.t) :
  User.id (affiliateUser userIds orgId u) = User.id u
  /\ User.email (affiliateUser userIds orgId u) = User.email u.
Proof. unfold affiliateUser. destruct (Js.includes userIds (User.id u)); now split. Qed.

Lemma acceptMembership_keeps (db : Db.t) (userIds : list Z) (orgId : Z) (m : Membership.t) :
  Membership.userId (acceptMembership db userIds orgId m) = Membership.userId m
  /\ Membership.teamId (acceptMembership db userIds orgId m) = Membership.teamId m
  /\ Membership.role (acceptMembership db userIds orgId m) = Membership.role m.
Proof.
  unfold acceptMembership. destruct (membershipTargeted db userIds orgId m); now repeat split.
Qed.

Lemma find_same {A : Type} (p q : A -> bool) (l : list A) :
  (forall x, p x = q x) -> find p l = find q l.
Proof.
  intros H. induction l as [| x l IH]; simpl; [reflexivity |].
  rewrite H. destruct (q x); [reflexivity | exact IH].
Qed.

Lemma filter_same {A : Type} (p q : A -> bool) (l : list A) :
  (forall x, p x = q x) -> filter p l = filter q l.
Proof.
  intros H. induction l as [| x l IH]; simpl; [reflexivity |].
  rewrite H, IH. reflexivity.
Qed.

Lemma existsb_same {A : Type} (p q : A -> bool) (l : list A) :
  (forall x, p x = q x) -> existsb p l = existsb q l.
Proof.
  intros H. induction l as [| x l IH]; simpl; [reflexivity |].
  now rewrite H, IH.
Qed.

Lemma map_same {A B : Type} (f g : A -> B) (l : list A) :
  (forall x, f x = g x) -> map f l = map g l.
Proof.
  intros H. induction l as [| x l IH]; simpl; [reflexivity |].
  now rewrite H, IH.
Qed.

Lemma updateFirst_again {A : Type} (p : A -> bool) (f : A -> A) (l l' : list A) :
  (forall x, p (f x) = p x) ->
  (forall x, f (f x) = f x) ->
  updateFirst p f l = Some l' -> updateFirst p f l' = Some l'.
Proof.
  intros Hp Hf. revert l'. induction l as [| x l IH]; simpl; intros l' H; [discriminate |].
  destruct (p x) eqn:Hx.
  - injection H as <-. simpl. now rewrite Hp, Hx, Hf.
  - destruct (updateFirst p f l) as [l0 |]; [| discriminate].
    injection H as <-. simpl. rewrite Hx. now rewrite (IH l0 eq_refl).
Qed.

Section SecondCall.

Variables (orgId : Z) (domain : option string) (rows : list OrganizationSettings.t)
  (db : Db.t).

Let userIds := map User.id (user_findMany domain orgId db).
Let db' := verifiedDb orgId domain rows db.

Lemma findUser_verified (x : Z) :
  Db.findUser db' x = option_map (affiliateUser userIds orgId) (Db.findUser db x).
Proof.
  unfold Db.findUser. simpl. rewrite find_map. f_equal.
  apply find_same. intros u.
  now rewrite (proj1 (affiliateUser_keeps _ orgId u)).
Qed.

Lemma hasMembershipIn_verified (x : Z) :
  hasMembershipIn db' orgId x = hasMembershipIn db orgId x.
Proof.
  unfold hasMembershipIn. simpl. rewrite existsb_map_comm.
  apply existsb_same. intros m.
  destruct (acceptMembership_keeps db userIds orgId m) as (Hu & Ht & _).
  fold userIds. now rewrite Hu, Ht.
Qed.

Lemma user_findMany_verified :
  user_findMany domain orgId db' = map (affiliateUser userIds orgId) (user_findMany domain orgId db).
Proof.
  unfold user_findMany at 1. simpl. rewrite filter_map_comm. f_equal.
  apply filter_same. intros u.
  destruct (affiliateUser_keeps userIds orgId u) as [Hid Hemail].
  fold userIds. rewrite Hid, Hemail. f_equal. apply hasMembershipIn_verified.
Qed.

Lemma userIds_verified :
  map User.id (user_findMany domain orgId db') = userIds.
Proof.
  rewrite user_findMany_verified, map_map. apply map_same. intros u.
  apply affiliateUser_keeps.
Qed.

Lemma membershipTargeted_accepted (m : Membership.t) :
  membershipTargeted db' userIds orgId (acceptMembership db userIds orgId m)
  = membershipTargeted db userIds orgId m.
Proof.
  destruct (acceptMembership_keeps db userIds orgId m) as (Hu & Ht & _).
  unfold membershipTargeted, teamHasParent, Db.findTeam. simpl.
  now rewrite Hu, Ht.
Qed.

Lemma ownerMembers_verified (teamId : Z) :
  ownerMembers db' teamId
  = map (fun mem => Build_Member (acceptMembership db userIds orgId (membership mem))
                      (affiliateUser userIds orgId (user mem)))
      (ownerMembers db teamId).
Proof.
  unfold ownerMembers. simpl. rewrite filter_map_comm.
  rewrite (filter_same
             (fun m => (Membership.teamId (acceptMembership db userIds orgId m) =? teamId)
                       && MembershipRole_eqb
                            (Membership.role (acceptMembership db userIds orgId m)) OWNER)
             (fun m => (Membership.teamId m =? teamId)
                       && MembershipRole_eqb (Membership.role m) OWNER)).
  2:{ intros m. destruct (acceptMembership_keeps db userIds orgId m) as (_ & Ht & Hr).
      now rewrite Ht, Hr. }
  induction (filter _ (Db.memberships db)) as [| m l IH]; simpl; [reflexivity |].
  fold userIds in IH |- *. rewrite map_app, <- IH. f_equal.
  rewrite (proj1 (acceptMembership_keeps db userIds orgId m)).
  fold db'. rewrite findUser_verified.
  now destruct (Db.findUser db (Membership.userId m)).
Qed.

Lemma users_again :
  map (affiliateUser userIds orgId) (Db.users db') = Db.users db'.
Proof.
  unfold db', verifiedDb. fold userIds. simpl. fold userIds.
  rewrite map_map. apply map_same. intros u. unfold affiliateUser at 1.
  rewrite (proj1 (affiliateUser_keeps userIds orgId u)).
  unfold affiliateUser. destruct (Js.includes userIds (User.id u)); reflexivity.
Qed.

Lemma memberships_again :
  map (acceptMembership db' userIds orgId) (Db.memberships db') = Db.memberships db'.
Proof.
  transitivity (map (fun m => acceptMembership db' userIds orgId
                                (acceptMembership db userIds orgId m))
                  (Db.memberships db)).
  - unfold db' at 2. unfold verifiedDb. simpl. fold userIds. now rewrite map_map.
  - unfold db' at 2. unfold verifiedDb. simpl. fold userIds.
    apply map_same. intros m. unfold acceptMembership at 1.
    rewrite membershipTargeted_accepted.
    unfold acceptMembership. destruct (membershipTargeted db userIds orgId m); reflexivity.
Qed.

(** The verified store is a fixed point of the three writes. *)
Lemma verifiedDb_again : verifiedDb orgId domain rows db' = db'.
Proof.
  unfold verifiedDb at 1. rewrite userIds_verified, users_again, memberships_again.
  reflexivity.
Qed.

End SecondCall.

(** X13. Verifying an organization a second time changes nothing: after a
    call that returned, the same call on the store it left returns the same
    confirmation and leaves that store as it is. *)
Theorem adminVerify_idempotent (orgId : Z) (db db' : Db.t) (reply : Reply) :
  adminVerifyHandler orgId db = (Ok reply, db') ->
  adminVerifyHandler orgId db' = (Ok reply, db').
Proof.
  rewrite adminVerifyHandler_cases. unfold team_findFirst.
  destruct (find (fun t => (Team.id t =? orgId) && Team.isOrganization t) (Db.teams db))
    as [t |] eqn:Hfind; [| discriminate].
  cbn [members]. destruct (ownerMembers db (Team.id t)) as [| first rest] eqn:Howners;
    [discriminate |].
  destruct (updateFirst _ _ (Db.organizationSettings db)) as [rows |] eqn:Hupd;
    [| discriminate].
  set (domain := nth_error (Js.split "@" (User.email (user first))) 1).
  intros H. injection H as <- <-.
  rewrite adminVerifyHandler_cases. unfold team_findFirst.
  change (Db.teams (verifiedDb orgId domain rows db)) with (Db.teams db).
  rewrite Hfind. cbn [members]. rewrite ownerMembers_verified, Howners.
  cbn [map user].
  rewrite (proj2 (affiliateUser_keeps _ orgId (user first))). fold domain.
  change (Db.organizationSettings (verifiedDb orgId domain rows db)) with rows.
  rewrite (updateFirst_again _ _ (Db.organizationSettings db) rows).
  - now rewrite verifiedDb_again.
  - intros s. reflexivity.
  - intros s. reflexivity.
  - exact Hupd.
Qed.

(** X13 on the sample organization. *)
Lemma adminVerify_idempotent_witness :
  adminVerifyHandler 10 (snd (adminVerifyHandler 10 AdminVerify.sampleDb))
  = adminVerifyHandler 10 AdminVerify.sampleDb.
Proof.
  destruct (adminVerifyHandler 10 AdminVerify.sampleDb) as [[reply | e] db'] eqn:Hrun.
  - apply (adminVerify_idempotent 10 AdminVerify.sampleDb db' reply Hrun).
  - vm_compute in Hrun. discriminate.
Defined.

(** ** adminVerify: the accepted domain *)

Lemma noAt_cons (c : ascii) (s : string) :
  noAt (String c s) -> Ascii.eqb c "@" = false /\ noAt s.
Proof.
  unfold noAt. simpl. intros H. split.
  - destruct (Ascii.eqb_spec c "@"%char) as [-> | _]; [| reflexivity].
    elim H. now left.
  - intros Hin. apply H. now right.
Qed.

Lemma split_no_at (s : string) : noAt s -> Js.split "@" s = [s].
Proof.
  induction s as [| c s IH]; intros H; simpl; [reflexivity |].
  apply noAt_cons in H as [Hc Hs]. now rewrite Hc, (IH Hs).
Qed.

Lemma split_at (local rest : string) :
  noAt local ->
  Js.split "@" (local ++ String "@" rest) = local :: Js.split "@" rest.
Proof.
  induction local as [| c s IH]; intros H; simpl; [reflexivity |].
  apply noAt_cons in H as [Hc Hs]. now rewrite Hc, (IH Hs).
Qed.

Lemma split_domain (local domain email : string) :
  noAt local ->
  noAt domain ->
  email = (local ++ "@" ++ domain)%string
  \/ (exists rest, email = (local ++ "@" ++ domain ++ "@" ++ rest)%string) ->
  nth_error (Js.split "@" email) 1 = Some domain.
Proof.
  intros Hlocal Hdomain [-> | (rest & ->)]; simpl; rewrite (split_at _ _ Hlocal); simpl.
  - now rewrite (split_no_at _ Hdomain).
  - now rewrite (split_at _ _ Hdomain).
Qed.

(** X14. The accepted domain is the text between the first "@" of the
    first owner's email and the next "@" or the end of the address: for an
    owner at local@domain, and also for an address with more text after a
    second "@", a call on an organization with a settings row confirms
    [domain]. *)
Theorem accepted_domain_is_the_part_after_at (orgId : Z) (db : Db.t) (org : FoundOrg)
    (first : Member) (rest : list Member) (local domain : string) :
  team_findFirst orgId db = Some org ->
  members org = first :: rest ->
  noAt local ->
  noAt domain ->
  User.email (user first) = (local ++ "@" ++ domain)%string
  \/ (exists more, User.email (user first) = (local ++ "@" ++ domain ++ "@" ++ more)%string) ->
  (exists s, In s (Db.organizationSettings db)
             /\ OrganizationSettings.organizationId s = orgId) ->
  fst (adminVerifyHandler orgId db)
  = Ok (Build_Reply true
          ("Verified Organization - Auto accepted all members ending in " ++ domain)%string).
Proof.
  intros Hfound Hmembers Hlocal Hdomain Hemail Hsettings.
  rewrite adminVerifyHandler_cases, Hfound, Hmembers.
  destruct (updateFirst_Some
              (fun s => OrganizationSettings.organizationId s =? orgId)
              (OrganizationSettings.set_isOrganizationVerified true)
              (Db.organizationSettings db)) as (pre & s & post & _ & _ & _ & ->).
  { destruct Hsettings as (s & Hs & Hid). exists s. split; [exact Hs | now apply Z.eqb_eq]. }
  now rewrite (split_domain local domain _ Hlocal Hdomain Hemail).
Qed.

(** X14 on the sample organization, whose owner is owner@acme.com. *)
Lemma accepted_domain_is_the_part_after_at_witness :
  fst (adminVerifyHandler 10 AdminVerify.sampleDb)
  = Ok (Build_Reply true
          "Verified Organization - Auto accepted all members ending in acme.com").
Proof.
  eapply (accepted_domain_is_the_part_after_at 10 AdminVerify.sampleDb _ _ _
            "owner" "acme.com").
  - reflexivity.
  - reflexivity.
  - unfold noAt. simpl. intros H. decompose [or] H; try discriminate; contradiction.
  - unfold noAt. simpl. intros H. decompose [or] H; try discriminate; contradiction.
  - left. reflexivity.
  - eexists. split; [left; reflexivity | reflexivity].
Defined.

(** ** adminVerify: matching by suffix *)




(** ** getByViewer: the shape of a listed event type *)

(** Every event type of the output went through [mapEventType]. *)
Lemma listed_event_type_mapped (E : Collaborators) (db : Db.t) (uid : Z)
    (input : option Input.t) (out : Output.t) (g : EventTypeGroup.t)
    (e : MappedEventType.t) :
  getByViewerHandler E db uid input = Ok out ->
  In g (Output.eventTypeGroups out) ->
  In e (EventTypeGroup.eventTypes g) ->
  exists sel, mapEventType E sel = Ok e.
Proof.
  intros Hout Hg He.
  destruct (EventTypeGroup.teamId g) as [tid |] eqn:Hteam.
  - destruct (team_group_origin E db uid input out g Hout Hg) as (m & md & _ & _ & Hbuilt).
    { rewrite Hteam. discriminate. }
    apply teamGroup_Ok in Hbuilt as (mapped & Hmapped & _ & _ & _ & _ & _ & Hevs).
    rewrite Hevs in He. unfold teamGroupEventTypes in He.
    do 3 (apply filter_In in He as [He _]).
    destruct (mapR_In_image _ _ _ _ Hmapped He) as (sel & _ & Hsel). now exists sel.
  - destruct (personal_group_shape E db uid input out Hout) as [Hshape Hnone].
    destruct (personalGroupIncluded E input uid) eqn:Hincl;
      [| elim (Hnone eq_refl g Hg Hteam)].
    destruct (Hshape eq_refl) as (g0 & rest & uets & Hgroups & _ & Hrest & Hmapped & Hevs).
    rewrite Hgroups in Hg. destruct Hg as [<- | Hg]; [| elim (Hrest g Hg Hteam)].
    rewrite Hevs in He. apply filter_In in He as [He _].
    destruct (mapR_In_image _ _ _ _ Hmapped He) as (sel & _ & Hsel). now exists sel.
Qed.

(** X16. Every event type of the output, in the personal group or in a
    team group, has the shape the mapper gives it: when it has hosts, its
    users are the users of its hosts, whatever users are assigned to it
    directly; its safe description is absent when the description is null or
    empty and is the rendering of the description otherwise. *)
Theorem listed_event_types_are_mapped (E : Collaborators) (db : Db.t) (uid : Z)
    (input : option Input.t) (out : Output.t) (g : EventTypeGroup.t)
    (e : MappedEventType.t) :
  getByViewerHandler E db uid input = Ok out ->
  In g (Output.eventTypeGroups out) ->
  In e (EventTypeGroup.eventTypes g) ->
  (MappedEventType.hosts e <> [] -> MappedEventType.users e = MappedEventType.hosts e)
  /\ (MappedEventType.description e = None
      \/ MappedEventType.description e = Some ""%string ->
      MappedEventType.safeDescription e = None)
  /\ (forall d, MappedEventType.description e = Some d -> d <> ""%string ->
        MappedEventType.safeDescription e = Some (markdownToSafeHTML E d)).
Proof.
  intros Hout Hg He.
  destruct (listed_event_type_mapped E db uid input out g e Hout Hg He) as (sel & Hsel).
  unfold mapEventType in Hsel. apply bindR_Ok in Hsel as (md & _ & Hsel).
  injection Hsel as <-. simpl. split; [| split].
  - intros Hhosts. destruct (EventTypeSel.hosts sel); [now elim Hhosts | reflexivity].
  - intros [-> | ->]; reflexivity.
  - intros d -> Hd. simpl. destruct (String.eqb_spec d ""); [contradiction | reflexivity].
Qed.

(** X16 on the sample store with the hosted event type 122 of team 12: in
    every group the users of a hosted event type are those of its hosts, and
    event type 122 is listed with bob as its user and with its description
    rendered. *)
Lemma listed_event_types_are_mapped_witness :
  Forall
    (fun g =>
       Forall
         (fun e => MappedEventType.hosts e <> [] ->
                   MappedEventType.users e = MappedEventType.hosts e)
         (EventTypeGroup.eventTypes g))
    (Output.eventTypeGroups hostedOutput)
  /\ exists g e,
       In g (Output.eventTypeGroups hostedOutput)
       /\ In e (EventTypeGroup.eventTypes g)
       /\ MappedEventType.id e = 122
       /\ map UserSelect.id (MappedEventType.users e) = [2]
       /\ MappedEventType.safeDescription e = Some "Weekly sync"%string.
Proof.
  split.
  - apply Forall_forall. intros g Hg. apply Forall_forall. intros e He.
    apply (listed_event_types_are_mapped sampleCollaborators hostedDb 1 noInput
             hostedOutput g e); [vm_compute; reflexivity | exact Hg | exact He].
  - vm_compute. eexists _, _.
    split; [do 2 right; left; reflexivity |].
    split; [left; reflexivity |].
    repeat split.
Defined.
